(** * AutoOMR: the evaluation engine of the OMR server

    A shallow embedding of the server module (Hono application): the
    scoring function [calculateScores], the comparison generator
    [generateAnswerComparison], the simulated sheet reader and the two POST
    handlers that write to the key-value store, followed by the properties
    of the evaluation engine that hold of them. *)

From stdpp Require Import gmap strings list fin_maps pretty.

Local Open Scope Z_scope.

(** ** JavaScript values *)

(** The values a property of a parsed JSON document can hold. A missing
    property reads as [JUndefined]. Arrays and objects nested inside an
    answer table are only ever tested for truthiness and compared with
    [===], which on them is identity: [JRef] carries that identity. The
    numbers of these documents are counts and question numbers, so [JNum]
    carries an integer. *)
Inductive jsval :=
| JUndefined
| JNull
| JBool (b : bool)
| JNum (n : Z)
| JStr (s : string)
| JRef (r : positive).

Global Instance jsval_eq_dec : EqDecision jsval.
Proof. solve_decision. Defined.

(** ToBoolean. *)
Definition truthy (v : jsval) : bool :=
  match v with
  | JUndefined | JNull => false
  | JBool b => b
  | JNum n => negb (n =? 0)
  | JStr s => negb (String.eqb s "")
  | JRef _ => true
  end.

(** [a === b]. *)
Definition strict_eq (a b : jsval) : bool :=
  match a, b with
  | JUndefined, JUndefined => true
  | JNull, JNull => true
  | JBool x, JBool y => Bool.eqb x y
  | JNum x, JNum y => x =? y
  | JStr x, JStr y => String.eqb x y
  | JRef x, JRef y => Pos.eqb x y
  | _, _ => false
  end.

(** [a && b]: the left operand itself when it is falsy. *)
Definition js_and (a b : jsval) : jsval := if truthy a then b else a.

(** The undetected marker of a detected-answer set: [null] or absence. *)
Definition nullish (v : jsval) : bool :=
  match v with JUndefined | JNull => true | _ => false end.

Definition present (v : jsval) : bool := negb (nullish v).

(** ** Objects read by question number *)

(** A value on which [o[q]] is evaluated. [undefined] and [null] make the
    read throw; a falsy primitive ([""], [0], [false]) has no indexed
    property; any truthy value is seen through its integer-indexed
    properties (an object's keys, an array's or a string's indices). *)
Inductive jsobj :=
| Nullish
| FalsyPrimitive
| Obj (props : gmap Z jsval).

Definition truthy_obj (o : jsobj) : bool :=
  match o with Obj _ => true | _ => false end.

Inductive error := TypeError | SyntaxError | StoreError.

Inductive outcome (A : Type) :=
| Ok (a : A)
| Throw (e : error).
Arguments Ok {A} a.
Arguments Throw {A} e.

Global Instance outcome_ret : MRet outcome := λ A a, Ok a.
Global Instance outcome_bind : MBind outcome := λ A B f m,
  match m with Ok a => f a | Throw e => Throw e end.

Definition lookup_prop (m : gmap Z jsval) (q : Z) : jsval :=
  default JUndefined (m !! q).

(** [o[q]]. *)
Definition prop (o : jsobj) (q : Z) : outcome jsval :=
  match o with
  | Nullish => Throw TypeError
  | FalsyPrimitive => Ok JUndefined
  | Obj m => Ok (lookup_prop m q)
  end.

(** [for (let q = lo; q <= hi; q++) body], the loop state threaded through
    the iterations; a throwing iteration ends the loop. *)
Fixpoint for_each {S : Type} (qs : list Z) (body : S → Z → outcome S) (s : S)
  : outcome S :=
  match qs with
  | [] => Ok s
  | q :: qs' => s' ← body s q; for_each qs' body s'
  end.

(** The question numbers [1 .. 100] both loops of the server run over. *)
Definition sheetQuestions : list Z := seqZ 1 100.

(** ** Scoring *)

Record range := {
  range_subject : string;
  range_start : Z;
  range_end : Z
}.

Record scores := {
  totalScore : Z;
  subjectScores : gmap string Z
}.

Definition initialSubjectScores : gmap string Z :=
  <["Data Analytics" := 0]> (<["Machine Learning" := 0]>
  (<["Python Programming" := 0]> (<["Statistics" := 0]>
  (<["SQL & Databases" := 0]> ∅)))).

Definition subjectRanges : list range := [
  {| range_subject := "Data Analytics"; range_start := 1; range_end := 20 |};
  {| range_subject := "Machine Learning"; range_start := 21; range_end := 40 |};
  {| range_subject := "Python Programming"; range_start := 41; range_end := 60 |};
  {| range_subject := "Statistics"; range_start := 61; range_end := 80 |};
  {| range_subject := "SQL & Databases"; range_start := 81; range_end := 100 |}
].

(** [q >= range.start && q <= range.end]. *)
Definition in_range (q : Z) (r : range) : bool :=
  (range_start r <=? q) && (q <=? range_end r).

(** [detected && detected === correct], as a condition. *)
Definition counts (detected correct : jsval) : bool :=
  truthy (js_and detected (JBool (strict_eq detected correct))).

(** [subjectScores[k]++]. The key is always one of the object's own (see
    [subjectRanges_scored]), so the entry is a number that is incremented
    in place. *)
Definition increment (k : string) (m : gmap string Z) : gmap string Z :=
  alter (λ v, v + 1) k m.

(** One iteration of the scoring loop. *)
Definition score_step (detectedAnswers correctAnswers : jsobj)
    (st : Z * gmap string Z) (q : Z) : outcome (Z * gmap string Z) :=
  detected ← prop detectedAnswers q;
  correct ← prop correctAnswers q;
  if counts detected correct then
    let totalScore := st.1 + 1 in
    match List.find (in_range q) subjectRanges with
    | Some subjectRange =>
        Ok (totalScore, increment (range_subject subjectRange) st.2)
    | None => Ok (totalScore, st.2)
    end
  else Ok st.

Definition calculateScores (detectedAnswers correctAnswers : jsobj)
  : outcome scores :=
  st ← for_each sheetQuestions (score_step detectedAnswers correctAnswers)
         (0, initialSubjectScores);
  Ok {| totalScore := st.1; subjectScores := st.2 |}.

(** ** Answer comparison *)

Inductive entryStatus := Correct | Incorrect | Undetected.

Global Instance entryStatus_eq_dec : EqDecision entryStatus.
Proof. solve_decision. Defined.

Record comparisonEntry := {
  questionNumber : Z;
  subject : string;
  detectedAnswer : jsval;
  correctAnswer : jsval;
  isCorrect : jsval;
  status : entryStatus
}.

(** One entry of an answer key's [subjects] array, as the upload form
    sends it. *)
Record subjectDecl := {
  name : string;
  questions : string
}.

(** The [if (q <= 20) ... else if ... else ...] chain. The initial
    ['Unknown'] is overwritten on every path. *)
Definition subjectLabel (q : Z) : string :=
  if q <=? 20 then "Data Analytics"
  else if q <=? 40 then "Machine Learning"
  else if q <=? 60 then "Python Programming"
  else if q <=? 80 then "Statistics"
  else "SQL & Databases".

Definition comparison_step (detectedAnswers correctAnswers : jsobj)
    (comparison : list comparisonEntry) (q : Z)
  : outcome (list comparisonEntry) :=
  detected ← prop detectedAnswers q;
  correct ← prop correctAnswers q;
  let isCorrect := js_and detected (JBool (strict_eq detected correct)) in
  let subject := subjectLabel q in
  Ok (comparison ++ [{|
    questionNumber := q;
    subject := subject;
    detectedAnswer := detected;
    correctAnswer := correct;
    isCorrect := isCorrect;
    status := if truthy detected
              then (if truthy isCorrect then Correct else Incorrect)
              else Undetected
  |}]).

Definition generateAnswerComparison (detectedAnswers correctAnswers : jsobj)
    (subjects : list subjectDecl) : outcome (list comparisonEntry) :=
  for_each sheetQuestions (comparison_step detectedAnswers correctAnswers) [].

(** ** Simulated sheet reading *)

Definition options : list string := ["A"; "B"; "C"; "D"].

(** The two [Math.random()] draws of one iteration: whether the first one
    exceeded 0.05, and [Math.floor] of four times the second one, a number
    among 0, 1, 2 and 3. *)
Record draw := {
  draw_detected : bool;
  draw_option : nat
}.

Definition simulated_answer (d : draw) : jsval :=
  if draw_detected d
  then match options !! (draw_option d `mod` 4)%nat with
       | Some o => JStr o
       | None => JUndefined
       end
  else JNull.

Definition simulateOMRProcessing (random : Z → draw) : gmap Z jsval :=
  foldl (λ answers i, <[i := simulated_answer (random i)]> answers)
        ∅ sheetQuestions.

(** ** Stored records *)

Record answerKeyData := {
  id : string;
  examName : jsval;
  setVersion : jsval;
  totalQuestions : jsval;
  answers : jsobj;
  subjects : list subjectDecl;
  uploadDate : string
}.

Inductive evaluationStatus :=
| Pending
| Processing
| Completed
| Errored.

Global Instance evaluationStatus_eq_dec : EqDecision evaluationStatus.
Proof. solve_decision. Defined.

Record evaluationData := {
  ev_id : string;
  studentName : jsval;
  rollNumber : jsval;
  examDate : jsval;
  detectedAnswers : gmap Z jsval;
  answerKeyId : jsval;
  evaluation : option scores;
  imageData : string;
  ev_status : evaluationStatus;
  processingTime : string;
  processedAt : string
}.

Inductive stored :=
| StoredKey (k : answerKeyData)
| StoredEvaluation (e : evaluationData).

(** [answerKey.answers] of whatever record the lookup returned: an
    evaluation record has no such property. *)
Definition stored_answers (v : stored) : jsobj :=
  match v with
  | StoredKey k => answers k
  | StoredEvaluation _ => Nullish
  end.

(** The scoring and comparison calls as the two routes make them. *)
Definition score (detected : jsobj) (answerKey : answerKeyData)
  : outcome scores :=
  calculateScores detected (answers answerKey).

Definition compare (detected : jsobj) (answerKey : answerKeyData)
  : outcome (list comparisonEntry) :=
  generateAnswerComparison detected (answers answerKey) (subjects answerKey).

(** ** Handlers over the key-value store *)

Definition handler (A : Type) : Type :=
  gmap string stored → outcome A * gmap string stored.

Global Instance handler_ret : MRet handler := λ A a st, (Ok a, st).
Global Instance handler_bind : MBind handler := λ A B f m st,
  match m st with
  | (Ok a, st') => f a st'
  | (Throw e, st') => (Throw e, st')
  end.

Definition lift {A : Type} (o : outcome A) : handler A := λ st, (o, st).

(** Modelled from the spec: the store module [kv_store.tsx] is not among
    the sources. Its contract is [get(id) → value | absent] and
    [set(id, value) → void] over opaque string ids; a call can be rejected
    by the backing service, in which case nothing is written. An id that is
    not a string names no stored value. *)
Definition kv_get (up : bool) (key : jsval) : handler (option stored) :=
  λ st,
    if up
    then (Ok (match key with JStr k => st !! k | _ => None end), st)
    else (Throw StoreError, st).

Definition kv_set (up : bool) (key : string) (v : stored) : handler unit :=
  λ st, if up then (Ok (), <[key := v]> st) else (Throw StoreError, st).

(** What a handler reads from outside the request: the clock, the random
    draws of the simulation, and whether the store answers. *)
Record world := {
  now : Z;
  isoNow : string;
  random : Z → draw;
  randomTime : string;
  get_up : bool;
  set_up : bool
}.

Inductive response :=
| UploadOk (answerKeyId : string) (message : string)
| ProcessOk (evaluationId : string) (evaluation : evaluationData)
                  (message : string)
| ErrorJson (error : string) (code : Z).

(** [try { ... } catch (error) { return c.json({ error }, 500) }]. *)
Definition try_catch (h : handler response) (failure : string)
  : gmap string stored → response * gmap string stored :=
  λ st,
    match h st with
    | (Ok r, st') => (r, st')
    | (Throw _, st') => (ErrorJson failure 500, st')
    end.

(** [await c.req.json()]: a body that does not parse throws. *)
Definition req_json {B : Type} (body : option B) : handler B :=
  lift (match body with Some b => Ok b | None => Throw SyntaxError end).

Record answerKeyBody := {
  body_examName : jsval;
  body_setVersion : jsval;
  body_totalQuestions : jsval;
  body_answers : jsobj;
  body_subjects : list subjectDecl
}.

Definition upload_answer_key (w : world) (request : option answerKeyBody)
  : gmap string stored → response * gmap string stored :=
  try_catch (
    body ← req_json request;
    if negb (truthy (body_examName body))
       || negb (truthy (body_setVersion body))
       || negb (truthy_obj (body_answers body))
    then mret (ErrorJson "Missing required fields" 400)
    else
      let answerKeyId := "answer_key_" +:+ pretty (now w) in
      let answerKeyData := {|
        id := answerKeyId;
        examName := body_examName body;
        setVersion := body_setVersion body;
        totalQuestions := body_totalQuestions body;
        answers := body_answers body;
        subjects := body_subjects body;
        uploadDate := isoNow w
      |} in
      _ ← kv_set (set_up w) answerKeyId (StoredKey answerKeyData);
      mret (UploadOk answerKeyId "Answer key uploaded successfully")
  ) "Failed to upload answer key".

Record omrBody := {
  body_studentName : jsval;
  body_rollNumber : jsval;
  body_examDate : jsval;
  body_imageData : jsval;
  body_answerKeyId : jsval
}.

(** [imageData.substring(0, 50) + '...']: only a string has the method. *)
Definition image_reference (imageData : jsval) : outcome string :=
  match imageData with
  | JStr s => Ok (String.substring 0 50 s +:+ "...")
  | _ => Throw TypeError
  end.

Definition process_omr (w : world) (request : option omrBody)
  : gmap string stored → response * gmap string stored :=
  try_catch (
    body ← req_json request;
    if negb (truthy (body_studentName body))
       || negb (truthy (body_rollNumber body))
       || negb (truthy (body_imageData body))
    then mret (ErrorJson "Missing required fields" 400)
    else
      answerKey ← (if truthy (body_answerKeyId body)
                   then kv_get (get_up w) (body_answerKeyId body)
                   else mret None);
      let detectedAnswers := simulateOMRProcessing (random w) in
      evaluation ← match answerKey with
                   | Some key =>
                       r ← lift (calculateScores (Obj detectedAnswers)
                                                 (stored_answers key));
                       mret (Some r)
                   | None => mret None
                   end;
      let evaluationId := "evaluation_" +:+ pretty (now w) in
      reference ← lift (image_reference (body_imageData body));
      let evaluationData := {|
        ev_id := evaluationId;
        studentName := body_studentName body;
        rollNumber := body_rollNumber body;
        examDate := body_examDate body;
        detectedAnswers := detectedAnswers;
        answerKeyId := body_answerKeyId body;
        evaluation := evaluation;
        imageData := reference;
        ev_status := Completed;
        processingTime := randomTime w;
        processedAt := isoNow w
      |} in
      _ ← kv_set (set_up w) evaluationId (StoredEvaluation evaluationData);
      mret (ProcessOk evaluationId evaluationData
              "OMR sheet processed successfully")
  ) "Failed to process OMR sheet".

(** ** Counting questions and summing subtotals *)

(** The number of questions of [qs] that satisfy [p]. *)
Definition count_questions (p : Z → bool) (qs : list Z) : Z :=
  Z.of_nat (length (List.filter p qs)).

(** The sum of the values of a [subjectScores] object. *)
Definition sum_values (m : gmap string Z) : Z :=
  map_fold (λ _ v acc, v + acc) 0 m.

(** The number an answer key declares as [totalQuestions]. *)
Definition declaredQuestions (answerKey : answerKeyData) : Z :=
  match totalQuestions answerKey with JNum n => n | _ => 0 end.

(** A question is answered correctly, in the words of the scoring contract:
    the detected answer is present and equals the key's answer. *)
Definition answered_correctly (detected correct : gmap Z jsval) (q : Z) : bool :=
  present (lookup_prop detected q)
  && bool_decide (lookup_prop detected q = lookup_prop correct q).

(** What an entry of a detected-answer set can be: the undetected marker
    or a non-empty answer string. *)
Definition detected_value (v : jsval) : bool :=
  match v with
  | JUndefined | JNull => true
  | JStr s => negb (String.eqb s "")
  | _ => false
  end.

(** A detected-answer set as the sheet reader delivers it: every entry on
    the sheet's questions is a [detected_value]. *)
Definition detected_set (detected : gmap Z jsval) : bool :=
  forallb (λ q, detected_value (lookup_prop detected q)) sheetQuestions.

(** The scoring loop body on two objects, where no read throws. *)
Definition tally (detected correct : gmap Z jsval)
    (st : Z * gmap string Z) (q : Z) : Z * gmap string Z :=
  if counts (lookup_prop detected q) (lookup_prop correct q) then
    (st.1 + 1,
     match List.find (in_range q) subjectRanges with
     | Some subjectRange => increment (range_subject subjectRange) st.2
     | None => st.2
     end)
  else st.

(** The names under which [calculateScores] keeps subtotals. *)
Definition scoredSubjects : gset string :=
  list_to_set (range_subject <$> subjectRanges).

(** The entries of a detected-answer set on the sheet's questions. *)
Definition on_sheet (detected : gmap Z jsval) : gmap Z jsval :=
  filter (λ kv, 1 ≤ kv.1 ≤ 100) detected.

(** The entry the comparison loop pushes for question [q] when both
    arguments are objects. *)
Definition entry_of (detected correct : gmap Z jsval) (q : Z) : comparisonEntry :=
  let d := lookup_prop detected q in
  let c := lookup_prop correct q in
  {| questionNumber := q;
     subject := subjectLabel q;
     detectedAnswer := d;
     correctAnswer := c;
     isCorrect := js_and d (JBool (strict_eq d c));
     status := if truthy d
               then (if truthy (js_and d (JBool (strict_eq d c)))
                     then Correct else Incorrect)
               else Undetected |}.

(** The stored value a request's [answerKeyId] leads to, if any. *)
Definition key_for (answerKeyId : jsval) (st : gmap string stored)
  : option stored :=
  if truthy answerKeyId
  then match answerKeyId with JStr k => st !! k | _ => None end
  else None.

(** ** Sample inputs *)

(** A table that answers ["A"] to the questions [1 .. n]. *)
Definition all_A (n : Z) : gmap Z jsval :=
  list_to_map ((λ q, (q, JStr "A")) <$> seqZ 1 n).

(** The subjects the upload form attaches to every key. *)
Definition formSubjects : list subjectDecl := [
  {| name := "Data Analytics"; questions := "1-20" |};
  {| name := "Machine Learning"; questions := "21-40" |};
  {| name := "Python Programming"; questions := "41-60" |};
  {| name := "Statistics"; questions := "61-80" |};
  {| name := "SQL & Databases"; questions := "81-100" |}
].

Definition sample_key (n : Z) (table : gmap Z jsval)
    (declared : list subjectDecl) : answerKeyData := {|
  id := "answer_key_1705312800000";
  examName := JStr "Midterm";
  setVersion := JStr "A";
  totalQuestions := JNum n;
  answers := Obj table;
  subjects := declared;
  uploadDate := "2024-01-15T10:00:00.000Z"
|}.

(** A complete key for a sheet of 101 questions. *)
Definition key101 : answerKeyData := sample_key 101 (all_A 101) formSubjects.

(** The two-question key of the specification's scenarios. *)
Definition key2 : answerKeyData :=
  sample_key 2 (<[1 := JStr "A"]> (<[2 := JStr "B"]> ∅)) formSubjects.

(** A 100-question key that declares one subject of its own. *)
Definition physicsKey : answerKeyData :=
  sample_key 100 (all_A 100) [{| name := "Physics"; questions := "1-100" |}].

Definition sample_world : world := {|
  now := 1705312800000;
  isoNow := "2024-01-15T10:00:00.000Z";
  random := λ i, {| draw_detected := negb (i =? 7); draw_option := Z.to_nat i |};
  randomTime := "2.4s";
  get_up := true;
  set_up := true
|}.

(** A sheet submitted without an answer key. *)
Definition sample_sheet : omrBody := {|
  body_studentName := JStr "John Doe";
  body_rollNumber := JStr "DS001";
  body_examDate := JStr "2024-01-15";
  body_imageData := JStr "data:image/png;base64,iVBORw0KGgo";
  body_answerKeyId := JUndefined
|}.

(** A 100-question key without an answer for question 50. *)
Definition incomplete_upload : answerKeyBody := {|
  body_examName := JStr "Midterm";
  body_setVersion := JStr "A";
  body_totalQuestions := JNum 100;
  body_answers := Obj (delete 50 (all_A 100));
  body_subjects := formSubjects
|}.

(** The record the OMR route builds for [sample_sheet] in [sample_world]. *)
Definition stored_sheet : evaluationData := {|
  ev_id := "evaluation_" +:+ pretty (now sample_world);
  studentName := JStr "John Doe";
  rollNumber := JStr "DS001";
  examDate := JStr "2024-01-15";
  detectedAnswers := simulateOMRProcessing (random sample_world);
  answerKeyId := JUndefined;
  evaluation := None;
  imageData := "data:image/png;base64,iVBORw0KGgo...";
  ev_status := Completed;
  processingTime := "2.4s";
  processedAt := "2024-01-15T10:00:00.000Z"
|}.

(** The record the upload route builds for [incomplete_upload]. *)
Definition stored_incomplete_key : answerKeyData := {|
  id := "answer_key_" +:+ pretty (now sample_world);
  examName := JStr "Midterm";
  setVersion := JStr "A";
  totalQuestions := JNum 100;
  answers := Obj (delete 50 (all_A 100));
  subjects := formSubjects;
  uploadDate := "2024-01-15T10:00:00.000Z"
|}.

(** ** Records the routes build, and what the statements name *)

(** The result with no point in it. *)
Definition zeroScores : scores :=
  {| totalScore := 0; subjectScores := initialSubjectScores |}.

(** The integer-indexed properties of a value whose reads do not throw. *)
Definition props_of (o : jsobj) : gmap Z jsval :=
  match o with Obj m => m | _ => ∅ end.

(** [!studentName || !rollNumber || !imageData]. *)
Definition missing_omr_fields (body : omrBody) : bool :=
  negb (truthy (body_studentName body))
  || negb (truthy (body_rollNumber body))
  || negb (truthy (body_imageData body)).

(** The record the upload route builds from a body. *)
Definition answerKeyData_of (w : world) (body : answerKeyBody) : answerKeyData := {|
  id := "answer_key_" +:+ pretty (now w);
  examName := body_examName body;
  setVersion := body_setVersion body;
  totalQuestions := body_totalQuestions body;
  answers := body_answers body;
  subjects := body_subjects body;
  uploadDate := isoNow w
|}.

(** The record the OMR route builds from a body, a score and an image
    reference. *)
Definition evaluationData_of (w : world) (body : omrBody)
    (evaluation : option scores) (reference : string) : evaluationData := {|
  ev_id := "evaluation_" +:+ pretty (now w);
  studentName := body_studentName body;
  rollNumber := body_rollNumber body;
  examDate := body_examDate body;
  detectedAnswers := simulateOMRProcessing (random w);
  answerKeyId := body_answerKeyId body;
  evaluation := evaluation;
  imageData := reference;
  ev_status := Completed;
  processingTime := randomTime w;
  processedAt := isoNow w
|}.

(** [{ ...omrData, answerKeyId }]: the request the application sends for a
    sheet once it has chosen an answer key. *)
Definition processData (omrData : omrBody) (answerKeyId : string) : omrBody := {|
  body_studentName := body_studentName omrData;
  body_rollNumber := body_rollNumber omrData;
  body_examDate := body_examDate omrData;
  body_imageData := body_imageData omrData;
  body_answerKeyId := JStr answerKeyId
|}.

(** * The query routes and the views that read their answers *)

(** ** Query routes of the server *)

(** Modelled from the spec: the store module [kv_store.tsx] is not among
    the sources. Its contract gives [getByPrefix(prefix) → sequence<value>]:
    the values stored under the ids that start with the prefix, in an order
    of the store's own choosing. *)
Definition kv_getByPrefix (up : bool) (prefix : string) : handler (list stored) :=
  λ st,
    if up
    then (Ok ((map_to_list
                 (filter (λ kv, String.prefix prefix kv.1 = true) st)).*2), st)
    else (Throw StoreError, st).

Inductive queryResponse :=
| AnswerKeysJson (answerKeys : list stored)
| EvaluationsJson (evaluations : list stored)
| ComparisonJson (evaluation : stored)
                 (answerComparison : option (list comparisonEntry))
| QueryError (error : string) (code : Z).

Definition try_catch_query (h : handler queryResponse) (failure : string)
  : gmap string stored → queryResponse * gmap string stored :=
  λ st,
    match h st with
    | (Ok r, st') => (r, st')
    | (Throw _, st') => (QueryError failure 500, st')
    end.

Definition get_answer_keys (w : world)
  : gmap string stored → queryResponse * gmap string stored :=
  try_catch_query (
    answerKeys ← kv_getByPrefix (get_up w) "answer_key_";
    mret (AnswerKeysJson answerKeys)
  ) "Failed to fetch answer keys".

Definition get_evaluations (w : world)
  : gmap string stored → queryResponse * gmap string stored :=
  try_catch_query (
    evaluations ← kv_getByPrefix (get_up w) "evaluation_";
    mret (EvaluationsJson evaluations)
  ) "Failed to fetch evaluations".

(** [record.answerKeyId], [record.detectedAnswers] and [record.subjects] of
    whatever record a lookup returned: a property the record does not have
    reads as [undefined]. *)
Definition stored_answerKeyId (v : stored) : jsval :=
  match v with
  | StoredKey _ => JUndefined
  | StoredEvaluation e => answerKeyId e
  end.

Definition stored_detectedAnswers (v : stored) : jsobj :=
  match v with
  | StoredKey _ => Nullish
  | StoredEvaluation e => Obj (detectedAnswers e)
  end.

Definition stored_subjects (v : stored) : list subjectDecl :=
  match v with
  | StoredKey k => subjects k
  | StoredEvaluation _ => []
  end.

(** [GET /evaluations/:id/answers]. *)
Definition get_answer_comparison (w : world) (evaluationId : string)
  : gmap string stored → queryResponse * gmap string stored :=
  try_catch_query (
    evaluation ← kv_get (get_up w) (JStr evaluationId);
    match evaluation with
    | None => mret (QueryError "Evaluation not found" 404)
    | Some evaluation =>
        answerComparison ←
          (if truthy (stored_answerKeyId evaluation)
           then
             answerKey ← kv_get (get_up w) (stored_answerKeyId evaluation);
             match answerKey with
             | Some answerKey =>
                 r ← lift (generateAnswerComparison
                             (stored_detectedAnswers evaluation)
                             (stored_answers answerKey)
                             (stored_subjects answerKey));
                 mret (Some r)
             | None => mret None
             end
           else mret None);
        mret (ComparisonJson evaluation answerComparison)
    end
  ) "Failed to fetch answer comparison".

(** ** The comparison view *)

(** [answerComparison.filter(a => a.status === s).length]. *)
Definition count_status (s : entryStatus)
    (answerComparison : list comparisonEntry) : nat :=
  length (List.filter (λ a, bool_decide (status a = s)) answerComparison).

(** The [summary] of the view's detailed report. *)
Record reportSummary := {
  summary_total : nat;
  summary_correct : nat;
  summary_incorrect : nat;
  summary_undetected : nat
}.

Definition report_summary (answerComparison : list comparisonEntry)
  : reportSummary := {|
  summary_total := length answerComparison;
  summary_correct := count_status Correct answerComparison;
  summary_incorrect := count_status Incorrect answerComparison;
  summary_undetected := count_status Undetected answerComparison
|}.

(** [[...new Set(xs)]]: the distinct elements, each at its first
    occurrence. *)
Definition distinct (xs : list string) : list string :=
  foldl (λ seen x, if bool_decide (x ∈ seen) then seen else seen ++ [x]) [] xs.

(** One element of the view's [subjectStats]. The [percentage] field, a
    floating-point quotient of the two counts, is left out. *)
Record subjectStat := {
  stat_subject : string;
  stat_correct : nat;
  stat_total : nat
}.

Definition subjectStats (answerComparison : list comparisonEntry)
  : list subjectStat :=
  let subjects := distinct (subject <$> answerComparison) in
  (λ subject',
     let subjectAnswers :=
       List.filter (λ a, bool_decide (subject a = subject')) answerComparison in
     {| stat_subject := subject';
        stat_correct := count_status Correct subjectAnswers;
        stat_total := length subjectAnswers |}) <$> subjects.

(** ** The client's stand-in comparison *)

(** The subject table of the client's demo comparison and its lookup
    [subjects[Math.floor((questionNum - 1) / 20)]]. *)
Definition demoSubjects : list string :=
  ["Data Analytics"; "Machine Learning"; "Python Programming"; "Statistics";
   "SQL & Databases"].

Definition demo_subject (questionNum : Z) : option string :=
  let subjectIndex := (questionNum - 1) `div` 20 in
  if subjectIndex <? 0 then None else demoSubjects !! Z.to_nat subjectIndex.

(** ** The results dashboard *)

(** What the dashboard reads of an evaluation. *)
Record dashboardRow := {
  row_status : evaluationStatus;
  row_totalScore : Z
}.

Definition completedEvaluations (evaluations : list dashboardRow)
  : list dashboardRow :=
  List.filter (λ e, bool_decide (row_status e = Completed)) evaluations.

Definition count_rows (p : dashboardRow → bool) (rows : list dashboardRow) : nat :=
  length (List.filter p rows).

(** The [scoreDistribution] of the dashboard's statistics. *)
Definition scoreDistribution (completed : list dashboardRow)
  : list (string * nat) := [
  ("90-100", count_rows (λ e, 90 <=? row_totalScore e) completed);
  ("80-89", count_rows (λ e, (80 <=? row_totalScore e)
                             && (row_totalScore e <? 90)) completed);
  ("70-79", count_rows (λ e, (70 <=? row_totalScore e)
                             && (row_totalScore e <? 80)) completed);
  ("60-69", count_rows (λ e, (60 <=? row_totalScore e)
                             && (row_totalScore e <? 70)) completed);
  ("Below 60", count_rows (λ e, row_totalScore e <? 60) completed)
].

(** The row the application derives from an evaluation record it loads
    from the server: the record's status, and
    [evaluation.evaluation?.totalScore || 0] as the score. *)
Definition loaded_row (e : evaluationData) : dashboardRow := {|
  row_status := ev_status e;
  row_totalScore := match evaluation e with
                    | Some r => if totalScore r =? 0 then 0 else totalScore r
                    | None => 0
                    end
|}.

(** * Properties *)

(** ** Values *)

Lemma strict_eq_true a b : strict_eq a b = true ↔ a = b.
Proof.
  destruct a, b; simpl; split; intros H; try done; try (by inversion H).
  - by apply Bool.eqb_prop in H; subst.
  - inversion H; apply Bool.eqb_reflx.
  - apply Z.eqb_eq in H. by subst.
  - inversion H. apply Z.eqb_refl.
  - apply String.eqb_eq in H. by subst.
  - inversion H. apply String.eqb_refl.
  - apply Pos.eqb_eq in H. by subst.
  - inversion H. apply Pos.eqb_refl.
Qed.

Lemma strict_eq_decide a b : strict_eq a b = bool_decide (a = b).
Proof.
  destruct (strict_eq a b) eqn:E.
  - apply strict_eq_true in E. by rewrite bool_decide_eq_true_2.
  - rewrite bool_decide_eq_false_2; [done|].
    intros Heq. apply strict_eq_true in Heq. congruence.
Qed.

Lemma counts_unfold detected correct :
  counts detected correct = truthy detected && strict_eq detected correct.
Proof. unfold counts, js_and. by destruct (truthy detected) eqn:E. Qed.

Lemma detected_value_truthy v : detected_value v = true → truthy v = present v.
Proof. by destruct v. Qed.

Lemma counts_answered detected correct q :
  detected_value (lookup_prop detected q) = true →
  counts (lookup_prop detected q) (lookup_prop correct q)
  = answered_correctly detected correct q.
Proof.
  intros Hv. unfold answered_correctly.
  by rewrite counts_unfold, strict_eq_decide, detected_value_truthy.
Qed.

(** ** Loops *)

Lemma for_each_ok {S : Type} (body : S → Z → outcome S) (f : S → Z → S) qs s :
  (∀ s q, body s q = Ok (f s q)) →
  for_each qs body s = Ok (foldl f s qs).
Proof.
  intros Hbody. revert s.
  induction qs as [|q qs IH]; intros s; simpl; [done|].
  rewrite Hbody. simpl. apply IH.
Qed.

Lemma for_each_throw {S : Type} (body : S → Z → outcome S) e q qs s :
  (∀ s q, body s q = Throw e) →
  for_each (q :: qs) body s = Throw e.
Proof. intros Hbody. simpl. by rewrite Hbody. Qed.

Lemma score_step_obj detected correct st q :
  score_step (Obj detected) (Obj correct) st q = Ok (tally detected correct st q).
Proof.
  unfold score_step, tally, prop, mbind, outcome_bind.
  destruct (counts _ _); [|done].
  by destruct (List.find (in_range q) subjectRanges).
Qed.

Lemma calculateScores_obj detected correct :
  calculateScores (Obj detected) (Obj correct)
  = Ok (let st := foldl (tally detected correct) (0, initialSubjectScores)
                        sheetQuestions in
        {| totalScore := st.1; subjectScores := st.2 |}).
Proof.
  unfold calculateScores.
  rewrite (for_each_ok _ (tally detected correct)); [done|].
  intros. apply score_step_obj.
Qed.

Lemma calculateScores_no_key detected :
  calculateScores (Obj detected) Nullish = Throw TypeError.
Proof. reflexivity. Qed.

(** ** The total *)

Lemma tally_total detected correct qs st :
  (foldl (tally detected correct) st qs).1
  = st.1 + count_questions
             (λ q, counts (lookup_prop detected q) (lookup_prop correct q)) qs.
Proof.
  unfold count_questions. revert st.
  induction qs as [|q qs IH]; intros st; simpl; [lia|].
  rewrite IH. unfold tally.
  destruct (counts _ _); simpl; lia.
Qed.

Lemma count_questions_ext p1 p2 qs :
  (∀ q, q ∈ qs → p1 q = p2 q) →
  count_questions p1 qs = count_questions p2 qs.
Proof.
  unfold count_questions. intros Hext. f_equal. f_equal.
  induction qs as [|q qs IH]; simpl; [done|].
  rewrite (Hext q) by left.
  rewrite IH; [done|]. intros q' Hq'. apply Hext. by right.
Qed.

Lemma elem_of_sheetQuestions q : q ∈ sheetQuestions ↔ 1 ≤ q ≤ 100.
Proof. unfold sheetQuestions. rewrite elem_of_seqZ. lia. Qed.

Lemma detected_set_value detected q :
  detected_set detected = true → 1 ≤ q ≤ 100 →
  detected_value (lookup_prop detected q) = true.
Proof.
  unfold detected_set. rewrite forallb_forall. intros Hall Hq.
  apply Hall, list_elem_of_In, elem_of_sheetQuestions, Hq.
Qed.

Lemma for_each_ext {S : Type} (body1 body2 : S → Z → outcome S) qs s :
  (∀ s q, q ∈ qs → body1 s q = body2 s q) →
  for_each qs body1 s = for_each qs body2 s.
Proof.
  revert s. induction qs as [|q qs IH]; intros s Hext; simpl; [done|].
  rewrite Hext by left.
  destruct (body2 s q); simpl; [|done].
  apply IH. intros s' q' Hq'. apply Hext. by right.
Qed.

(** ** The simulated reader *)

Lemma foldl_insert_lookup (f : Z → jsval) qs (m : gmap Z jsval) q :
  foldl (λ answers i, <[i := f i]> answers) m qs !! q
  = if decide (q ∈ qs) then Some (f q) else m !! q.
Proof.
  revert m. induction qs as [|a qs IH]; intros m; simpl.
  - destruct (decide (q ∈ [])) as [Hin|_]; [by apply elem_of_nil in Hin|done].
  - rewrite IH.
    destruct (decide (q ∈ qs)) as [Hin|Hout],
             (decide (q ∈ a :: qs)) as [Hin'|Hout']; try done.
    + exfalso. apply Hout'. by right.
    + apply elem_of_cons in Hin' as [->|Hin']; [apply lookup_insert_eq|done].
    + rewrite lookup_insert_ne; [done|]. intros ->. apply Hout'. by left.
Qed.

Lemma simulated_answer_detected d : detected_value (simulated_answer d) = true.
Proof.
  unfold simulated_answer. destruct (draw_detected d); [|done].
  pose proof (Nat.mod_upper_bound (draw_option d) 4) as Hlt.
  destruct (draw_option d `mod` 4)%nat as [|[|[|[|n]]]]; try done. all: lia.
Qed.

(** What the reader delivers, and the OMR route scores and stores, is a
    detected-answer set: on each question of the sheet one of the four
    letters or [null]. *)
Lemma simulateOMRProcessing_detected_set random :
  detected_set (simulateOMRProcessing random) = true.
Proof.
  unfold detected_set. apply forallb_forall. intros q Hq%list_elem_of_In.
  unfold lookup_prop, simulateOMRProcessing.
  rewrite foldl_insert_lookup, lookup_empty, decide_True by done.
  apply simulated_answer_detected.
Qed.

(** ** Subject subtotals *)

Lemma dom_initialSubjectScores : dom initialSubjectScores = scoredSubjects.
Proof.
  unfold initialSubjectScores, scoredSubjects. rewrite !dom_insert_L, dom_empty_L.
  simpl. set_solver.
Qed.

(** Every range names a key the scores object starts with, so the
    increment always finds a number. *)
Lemma subjectRanges_scored r :
  r ∈ subjectRanges → initialSubjectScores !! range_subject r = Some 0.
Proof.
  unfold subjectRanges. rewrite !elem_of_cons, elem_of_nil.
  intros [->|[->|[->|[->|[->|[]]]]]]; reflexivity.
Qed.

Lemma find_subjectRange q :
  1 ≤ q ≤ 100 →
  ∃ r, List.find (in_range q) subjectRanges = Some r
       ∧ r ∈ subjectRanges
       ∧ range_subject r = subjectLabel q.
Proof.
  intros Hq. unfold subjectLabel.
  destruct (Z.leb_spec q 20); [|destruct (Z.leb_spec q 40);
    [|destruct (Z.leb_spec q 60); [|destruct (Z.leb_spec q 80)]]].
  - exists {| range_subject := "Data Analytics"; range_start := 1; range_end := 20 |}.
    split; [|split; [by repeat constructor|done]].
    unfold subjectRanges, in_range; simpl.
    by rewrite (proj2 (Z.leb_le 1 q)), (proj2 (Z.leb_le q 20)) by lia.
  - exists {| range_subject := "Machine Learning"; range_start := 21; range_end := 40 |}.
    split; [|split; [by repeat constructor|done]].
    unfold subjectRanges, in_range; simpl.
    rewrite (proj2 (Z.leb_le 1 q)), (proj2 (Z.leb_gt q 20)) by lia. simpl.
    by rewrite (proj2 (Z.leb_le 21 q)), (proj2 (Z.leb_le q 40)) by lia.
  - exists {| range_subject := "Python Programming"; range_start := 41; range_end := 60 |}.
    split; [|split; [by repeat constructor|done]].
    unfold subjectRanges, in_range; simpl.
    rewrite (proj2 (Z.leb_le 1 q)), (proj2 (Z.leb_gt q 20)) by lia. simpl.
    rewrite (proj2 (Z.leb_le 21 q)), (proj2 (Z.leb_gt q 40)) by lia. simpl.
    by rewrite (proj2 (Z.leb_le 41 q)), (proj2 (Z.leb_le q 60)) by lia.
  - exists {| range_subject := "Statistics"; range_start := 61; range_end := 80 |}.
    split; [|split; [by repeat constructor|done]].
    unfold subjectRanges, in_range; simpl.
    rewrite (proj2 (Z.leb_le 1 q)), (proj2 (Z.leb_gt q 20)) by lia. simpl.
    rewrite (proj2 (Z.leb_le 21 q)), (proj2 (Z.leb_gt q 40)) by lia. simpl.
    rewrite (proj2 (Z.leb_le 41 q)), (proj2 (Z.leb_gt q 60)) by lia. simpl.
    by rewrite (proj2 (Z.leb_le 61 q)), (proj2 (Z.leb_le q 80)) by lia.
  - exists {| range_subject := "SQL & Databases"; range_start := 81; range_end := 100 |}.
    split; [|split; [by repeat constructor|done]].
    unfold subjectRanges, in_range; simpl.
    rewrite (proj2 (Z.leb_le 1 q)), (proj2 (Z.leb_gt q 20)) by lia. simpl.
    rewrite (proj2 (Z.leb_le 21 q)), (proj2 (Z.leb_gt q 40)) by lia. simpl.
    rewrite (proj2 (Z.leb_le 41 q)), (proj2 (Z.leb_gt q 60)) by lia. simpl.
    rewrite (proj2 (Z.leb_le 61 q)), (proj2 (Z.leb_gt q 80)) by lia. simpl.
    by rewrite (proj2 (Z.leb_le 81 q)), (proj2 (Z.leb_le q 100)) by lia.
Qed.

Lemma subjectLabel_scored q : subjectLabel q ∈ scoredSubjects.
Proof.
  unfold subjectLabel, scoredSubjects. simpl.
  repeat case_match; set_solver.
Qed.

Lemma sum_values_increment k v (m : gmap string Z) :
  m !! k = Some v → sum_values (increment k m) = sum_values m + 1.
Proof.
  intros Hk. unfold sum_values, increment.
  rewrite <-(insert_delete_id m k v) by done.
  rewrite alter_insert_eq.
  rewrite !map_fold_insert_L; try (by apply lookup_delete_eq); [lia|..];
    intros; lia.
Qed.

Lemma tally_dom detected correct st q :
  dom (tally detected correct st q).2 = dom st.2.
Proof.
  unfold tally. destruct (counts _ _); [|done]. cbn [fst snd].
  destruct (List.find (in_range q) subjectRanges); [apply dom_alter_L|done].
Qed.

Lemma tally_balance detected correct st q :
  1 ≤ q ≤ 100 →
  dom st.2 = scoredSubjects →
  (tally detected correct st q).1 - sum_values (tally detected correct st q).2
  = st.1 - sum_values st.2.
Proof.
  intros Hq Hdom. unfold tally.
  destruct (counts _ _); [|done]. cbn [fst snd].
  destruct (find_subjectRange q Hq) as (r & -> & _ & Hr).
  assert (is_Some (st.2 !! range_subject r)) as [v Hv].
  { apply elem_of_dom. rewrite Hdom, Hr. apply subjectLabel_scored. }
  rewrite (sum_values_increment _ v) by done. lia.
Qed.

Lemma tally_loop_balance detected correct qs st :
  (∀ q, q ∈ qs → 1 ≤ q ≤ 100) →
  dom st.2 = scoredSubjects →
  let st' := foldl (tally detected correct) st qs in
  dom st'.2 = scoredSubjects ∧ st'.1 - sum_values st'.2 = st.1 - sum_values st.2.
Proof.
  revert st. induction qs as [|q qs IH]; intros st Hqs Hdom; simpl; [done|].
  destruct (IH (tally detected correct st q)) as [Hd Hb].
  - intros q' Hq'. apply Hqs. by right.
  - by rewrite tally_dom.
  - split; [done|]. simpl in Hb. rewrite Hb.
    apply tally_balance; [apply Hqs; by left|done].
Qed.

(** The subtotal of a subject after the loop: what it was before, plus the
    number of scored questions labelled with that subject. *)
Lemma tally_loop_subject detected correct s qs st :
  (∀ q, q ∈ qs → 1 ≤ q ≤ 100) →
  (foldl (tally detected correct) st qs).2 !! s
  = (λ v, v + count_questions
                (λ q, counts (lookup_prop detected q) (lookup_prop correct q)
                      && bool_decide (subjectLabel q = s)) qs)
    <$> st.2 !! s.
Proof.
  unfold count_questions. revert st.
  induction qs as [|q qs IH]; intros st Hqs; simpl.
  { destruct (st.2 !! s); simpl; [f_equal; lia|done]. }
  rewrite IH by (intros q' Hq'; apply Hqs; by right).
  unfold tally.
  destruct (counts _ _); cbn [fst snd andb]; [|done].
  destruct (find_subjectRange q) as (r & -> & _ & Hr); [apply Hqs; by left|].
  unfold increment. rewrite lookup_alter, Hr.
  case_decide as Hs.
  - rewrite bool_decide_eq_true_2 by done. subst s.
    destruct (st.2 !! subjectLabel q); simpl; [f_equal; lia|done].
  - rewrite bool_decide_eq_false_2 by done. done.
Qed.

(** ** Scoring: the total, the subtotals, and what is ignored *)

Section scoring.
Variables detected correct : gmap Z jsval.

Lemma calculateScores_total :
  ∃ r, calculateScores (Obj detected) (Obj correct) = Ok r
       ∧ totalScore r
         = count_questions
             (λ q, counts (lookup_prop detected q) (lookup_prop correct q))
             sheetQuestions.
Proof.
  eexists. split; [apply calculateScores_obj|].
  cbn [totalScore]. rewrite tally_total. simpl. lia.
Qed.

Lemma calculateScores_balance :
  ∃ r, calculateScores (Obj detected) (Obj correct) = Ok r
       ∧ dom (subjectScores r) = scoredSubjects
       ∧ totalScore r = sum_values (subjectScores r).
Proof.
  eexists. split; [apply calculateScores_obj|].
  cbn [totalScore subjectScores].
  destruct (tally_loop_balance detected correct sheetQuestions
              (0, initialSubjectScores)) as [Hd Hb].
  - intros q. apply elem_of_sheetQuestions.
  - apply dom_initialSubjectScores.
  - split; [done|]. cbn [fst snd] in Hb.
    assert (sum_values initialSubjectScores = 0) as H0 by reflexivity.
    lia.
Qed.

Lemma calculateScores_subject s :
  s ∈ scoredSubjects →
  ∃ r, calculateScores (Obj detected) (Obj correct) = Ok r
       ∧ subjectScores r !! s
         = Some (count_questions
                   (λ q, counts (lookup_prop detected q) (lookup_prop correct q)
                         && bool_decide (subjectLabel q = s))
                   sheetQuestions).
Proof.
  intros Hs. eexists. split; [apply calculateScores_obj|].
  cbn [subjectScores]. rewrite tally_loop_subject.
  - cbn [snd]. rewrite <-dom_initialSubjectScores in Hs.
    apply elem_of_dom in Hs as [v Hv]. rewrite Hv.
    assert (v = 0) as ->; [|done].
    revert Hv. unfold initialSubjectScores.
    rewrite !lookup_insert_Some, lookup_empty. intuition congruence.
  - intros q. apply elem_of_sheetQuestions.
Qed.
End scoring.

(** C1, as amended. For every answer key whose [answers] is an object and
    every detected-answer set (each entry the undetected marker or a
    non-empty answer string), [score] returns a result whose [totalScore]
    is the number of questions [q] among 1..100, the fixed sheet size and
    not the key's [totalQuestions], for which the detected answer is
    present and equals the key's answer. In the loop each such question
    adds exactly 1 to the total and every other question adds 0. *)
Theorem score_total_counts_sheet (detected : gmap Z jsval)
    (answerKey : answerKeyData) (correct : gmap Z jsval) :
  detected_set detected = true →
  answers answerKey = Obj correct →
  (∃ r, score (Obj detected) answerKey = Ok r
        ∧ totalScore r
          = count_questions (answered_correctly detected correct) sheetQuestions)
  ∧ ∀ st q, 1 ≤ q ≤ 100 →
      ∃ st', score_step (Obj detected) (answers answerKey) st q = Ok st'
             ∧ st'.1 = st.1 + (if answered_correctly detected correct q
                               then 1 else 0).
Proof.
  intros Hset Hkey. unfold score. rewrite Hkey. split.
  - destruct (calculateScores_total detected correct) as (r & Hr & Ht).
    exists r. split; [done|]. rewrite Ht.
    apply count_questions_ext. intros q Hq%elem_of_sheetQuestions.
    by apply counts_answered, detected_set_value.
  - intros st q Hq. rewrite score_step_obj. eexists. split; [done|].
    unfold tally.
    rewrite counts_answered by by apply detected_set_value.
    destruct (answered_correctly _ _ _); simpl; lia.
Qed.

Lemma score_total_counts_sheet_witness :
  detected_set (all_A 101) = true
  ∧ answers key101 = Obj (all_A 101)
  ∧ (∃ r, score (Obj (all_A 101)) key101 = Ok r
          ∧ totalScore r
            = count_questions (answered_correctly (all_A 101) (all_A 101))
                sheetQuestions)
  ∧ ∀ st q, 1 ≤ q ≤ 100 →
      ∃ st', score_step (Obj (all_A 101)) (answers key101) st q = Ok st'
             ∧ st'.1 = st.1 + (if answered_correctly (all_A 101) (all_A 101) q
                               then 1 else 0).
Proof.
  split; [vm_compute; reflexivity|].
  split; [reflexivity|].
  apply (score_total_counts_sheet (all_A 101) key101 (all_A 101));
    [vm_compute|]; reflexivity.
Defined.

(** C1 as stated fails: on a complete 101-question key and a sheet whose
    101 answers are all right, the count over 1..totalQuestions is 101 and
    the code's total is 100. *)
Lemma score_total_counterexample :
  ∃ r, score (Obj (all_A 101)) key101 = Ok r
       ∧ totalScore r = 100
       ∧ count_questions (answered_correctly (all_A 101) (all_A 101))
           (seqZ 1 (declaredQuestions key101)) = 101.
Proof.
  eexists. split; [vm_compute; reflexivity|].
  split; vm_compute; reflexivity.
Qed.

(** C2. For every answer key whose [answers] is an object and every
    detected-answer set, [score] returns a result whose [totalScore] equals
    the sum of the values of its [subjectScores]. *)
Theorem score_total_is_sum_of_subjects (detected : gmap Z jsval)
    (answerKey : answerKeyData) (correct : gmap Z jsval) :
  answers answerKey = Obj correct →
  ∃ r, score (Obj detected) answerKey = Ok r
       ∧ totalScore r = sum_values (subjectScores r).
Proof.
  intros Hkey. unfold score. rewrite Hkey.
  destruct (calculateScores_balance detected correct) as (r & Hr & _ & Hsum).
  by exists r.
Qed.

Lemma score_total_is_sum_of_subjects_witness :
  answers key2 = Obj (<[1 := JStr "A"]> (<[2 := JStr "B"]> ∅))
  ∧ ∃ r, score (Obj (<[1 := JStr "A"]> (<[2 := JStr "C"]> ∅))) key2 = Ok r
         ∧ totalScore r = sum_values (subjectScores r).
Proof.
  split; [reflexivity|].
  by apply (score_total_is_sum_of_subjects _ key2
              (<[1 := JStr "A"]> (<[2 := JStr "B"]> ∅))).
Defined.

(** C4, as amended. For every answer key whose [answers] is an object,
    whatever subjects the key declares, the [subjectScores] of the result
    has exactly the five keys fixed in [calculateScores], each started at 0
    and holding the number of scored questions of its block of twenty, so
    each of the five is present even when its subtotal is 0. *)
Theorem score_subjects_are_the_fixed_five (detected : gmap Z jsval)
    (answerKey : answerKeyData) (correct : gmap Z jsval) :
  answers answerKey = Obj correct →
  ∃ r, score (Obj detected) answerKey = Ok r
       ∧ dom (subjectScores r)
         = list_to_set ["Data Analytics"; "Machine Learning";
                        "Python Programming"; "Statistics"; "SQL & Databases"]
       ∧ ∀ s, s ∈ dom (subjectScores r) →
           initialSubjectScores !! s = Some 0
           ∧ subjectScores r !! s
             = Some (count_questions
                       (λ q, counts (lookup_prop detected q)
                                    (lookup_prop correct q)
                             && bool_decide (subjectLabel q = s))
                       sheetQuestions).
Proof.
  intros Hkey. unfold score. rewrite Hkey.
  destruct (calculateScores_balance detected correct) as (r & Hr & Hdom & _).
  exists r. split; [done|]. split; [by rewrite Hdom|].
  intros s Hs. rewrite Hdom in Hs. split.
  - unfold scoredSubjects in Hs. apply elem_of_list_to_set in Hs.
    apply list_elem_of_fmap in Hs as (rg & -> & Hrg).
    by apply subjectRanges_scored.
  - destruct (calculateScores_subject detected correct s Hs) as (r' & Hr' & Hv).
    congruence.
Qed.

Lemma score_subjects_are_the_fixed_five_witness :
  answers physicsKey = Obj (all_A 100)
  ∧ ∃ r, score (Obj (all_A 100)) physicsKey = Ok r
       ∧ dom (subjectScores r)
         = list_to_set ["Data Analytics"; "Machine Learning";
                        "Python Programming"; "Statistics"; "SQL & Databases"]
       ∧ ∀ s, s ∈ dom (subjectScores r) →
           initialSubjectScores !! s = Some 0
           ∧ subjectScores r !! s
             = Some (count_questions
                       (λ q, counts (lookup_prop (all_A 100) q)
                                    (lookup_prop (all_A 100) q)
                             && bool_decide (subjectLabel q = s))
                       sheetQuestions).
Proof.
  split; [reflexivity|].
  by apply (score_subjects_are_the_fixed_five _ physicsKey (all_A 100)).
Defined.

(** C4 as stated fails: a key that declares the subject ["Physics"] is
    scored into a result without a ["Physics"] entry. *)
Lemma score_subjects_counterexample :
  "Physics" ∈ name <$> subjects physicsKey
  ∧ ∃ r, score (Obj (all_A 100)) physicsKey = Ok r
         ∧ subjectScores r !! "Physics" = None.
Proof.
  split; [by repeat constructor|].
  eexists. split; vm_compute; reflexivity.
Qed.

Lemma lookup_prop_on_sheet detected q :
  1 ≤ q ≤ 100 → lookup_prop (on_sheet detected) q = lookup_prop detected q.
Proof.
  intros Hq. unfold lookup_prop, on_sheet.
  destruct (detected !! q) as [v|] eqn:E.
  - by rewrite (map_lookup_filter_Some_2 _ _ q v).
  - rewrite map_lookup_filter_None_2; [done|by left].
Qed.

Lemma calculateScores_agree (d1 d2 : gmap Z jsval) (correctAnswers : jsobj) :
  (∀ q, 1 ≤ q ≤ 100 → lookup_prop d1 q = lookup_prop d2 q) →
  calculateScores (Obj d1) correctAnswers = calculateScores (Obj d2) correctAnswers.
Proof.
  intros Hagree. unfold calculateScores.
  rewrite (for_each_ext (score_step (Obj d1) correctAnswers)
                        (score_step (Obj d2) correctAnswers)); [done|].
  intros st q Hq%elem_of_sheetQuestions.
  unfold score_step, prop. by rewrite Hagree.
Qed.

(** C6, as amended. A detected-answer set that declares question numbers
    outside the key's range is not refused: for every answer key whose
    [answers] is an object, [score] returns a result, and it is the result
    of the same set restricted to the question numbers 1..100. *)
Theorem score_accepts_out_of_range (detected : gmap Z jsval)
    (answerKey : answerKeyData) (correct : gmap Z jsval) :
  answers answerKey = Obj correct →
  ∃ r, score (Obj detected) answerKey = Ok r
       ∧ score (Obj (on_sheet detected)) answerKey = Ok r.
Proof.
  intros Hkey. unfold score. rewrite Hkey.
  destruct (calculateScores_total detected correct) as (r & Hr & _).
  exists r. split; [done|]. rewrite <-Hr.
  apply calculateScores_agree. intros q Hq. by apply lookup_prop_on_sheet.
Qed.

Lemma score_accepts_out_of_range_witness :
  answers key2 = Obj (<[1 := JStr "A"]> (<[2 := JStr "B"]> ∅))
  ∧ ∃ r, score (Obj (<[1 := JStr "A"]> (<[101 := JStr "C"]> ∅))) key2 = Ok r
         ∧ score (Obj (on_sheet (<[1 := JStr "A"]> (<[101 := JStr "C"]> ∅))))
                 key2 = Ok r.
Proof.
  split; [reflexivity|].
  by apply (score_accepts_out_of_range _ key2
              (<[1 := JStr "A"]> (<[2 := JStr "B"]> ∅))).
Defined.

(** C6 as stated fails: the set below declares question 101 against a
    two-question key, and [score] returns a result with one point instead
    of throwing. *)
Lemma score_out_of_range_counterexample :
  let detected := <[1 := JStr "A"]> (<[101 := JStr "C"]> ∅) in
  is_Some (detected !! 101)
  ∧ ¬ (1 ≤ 101 ≤ declaredQuestions key2)
  ∧ ∃ r, score (Obj detected) key2 = Ok r ∧ totalScore r = 1.
Proof.
  split; [by eexists|]. split; [vm_compute; intros [_ H]; by apply H|].
  eexists. split; vm_compute; reflexivity.
Qed.

(** C9. Two detected-answer sets that agree on every question number in
    1..100 make [calculateScores] return the same result (the same
    [totalScore] and the same [subjectScores]) and no error: entries under
    other question numbers have no influence. *)
Theorem calculateScores_depends_on_sheet_only (d1 d2 correct : gmap Z jsval) :
  (∀ q, 1 ≤ q ≤ 100 → lookup_prop d1 q = lookup_prop d2 q) →
  ∃ r, calculateScores (Obj d1) (Obj correct) = Ok r
       ∧ calculateScores (Obj d2) (Obj correct) = Ok r.
Proof.
  intros Hagree.
  destruct (calculateScores_total d1 correct) as (r & Hr & _).
  exists r. split; [done|]. rewrite <-Hr. symmetry.
  by apply calculateScores_agree.
Qed.

Lemma calculateScores_depends_on_sheet_only_witness :
  let d1 : gmap Z jsval := <[1 := JStr "A"]> ∅ in
  let d2 : gmap Z jsval := <[101 := JStr "B"]> (<[1 := JStr "A"]> ∅) in
  (∀ q, 1 ≤ q ≤ 100 → lookup_prop d1 q = lookup_prop d2 q)
  ∧ ∃ r, calculateScores (Obj d1) (Obj (all_A 100)) = Ok r
         ∧ calculateScores (Obj d2) (Obj (all_A 100)) = Ok r.
Proof.
  intros d1 d2.
  assert (∀ q, 1 ≤ q ≤ 100 → lookup_prop d1 q = lookup_prop d2 q) as Hagree.
  { intros q Hq. unfold lookup_prop, d2. rewrite lookup_insert_ne; [done|lia]. }
  split; [exact Hagree|].
  exact (calculateScores_depends_on_sheet_only d1 d2 (all_A 100) Hagree).
Defined.

(** ** Answer comparison *)

Lemma comparison_loop detected correct qs acc :
  for_each qs (comparison_step (Obj detected) (Obj correct)) acc
  = Ok (acc ++ (entry_of detected correct <$> qs)).
Proof.
  revert acc. induction qs as [|q qs IH]; intros acc; simpl.
  - by rewrite app_nil_r.
  - rewrite IH. by rewrite <-app_assoc.
Qed.

Lemma generateAnswerComparison_obj detected correct declared :
  generateAnswerComparison (Obj detected) (Obj correct) declared
  = Ok (entry_of detected correct <$> sheetQuestions).
Proof. unfold generateAnswerComparison. by rewrite comparison_loop. Qed.

Lemma entry_of_status detected correct q :
  detected_value (lookup_prop detected q) = true →
  let e := entry_of detected correct q in
  status e = (if nullish (detectedAnswer e) then Undetected
              else if bool_decide (detectedAnswer e = correctAnswer e)
                   then Correct else Incorrect)
  ∧ (isCorrect e = JBool true ↔ status e = Correct).
Proof.
  intros Hv. unfold entry_of. cbn.
  rewrite strict_eq_decide. unfold js_and.
  rewrite (detected_value_truthy _ Hv). unfold present.
  destruct (nullish (lookup_prop detected q)) eqn:Hn; simpl.
  - split; [done|]. split; [|done].
    intros Hc. rewrite Hc in Hn. done.
  - destruct (bool_decide _); simpl; split; try done; split; done.
Qed.

(** C7, as amended. For every answer key whose [answers] is an object and
    every detected-answer set, [compare] returns exactly one entry per
    question of 1..100, in ascending question-number order, whatever the
    key's [totalQuestions]. *)
Theorem compare_lists_the_sheet (detected : gmap Z jsval)
    (answerKey : answerKeyData) (correct : gmap Z jsval) :
  answers answerKey = Obj correct →
  ∃ l, compare (Obj detected) answerKey = Ok l
       ∧ questionNumber <$> l = seqZ 1 100.
Proof.
  intros Hkey. unfold compare. rewrite Hkey, generateAnswerComparison_obj.
  eexists. split; [done|].
  rewrite <-list_fmap_compose. unfold sheetQuestions.
  rewrite <-(list_fmap_id (seqZ 1 100)) at 2.
  by apply list_fmap_ext.
Qed.

Lemma compare_lists_the_sheet_witness :
  answers key2 = Obj (<[1 := JStr "A"]> (<[2 := JStr "B"]> ∅))
  ∧ ∃ l, compare (Obj (<[1 := JNull]> (<[2 := JStr "B"]> ∅))) key2 = Ok l
         ∧ questionNumber <$> l = seqZ 1 100.
Proof.
  split; [reflexivity|].
  by apply (compare_lists_the_sheet _ key2
              (<[1 := JStr "A"]> (<[2 := JStr "B"]> ∅))).
Defined.

(** C7 as stated fails: against the two-question key the comparison has
    100 entries, not the two of 1..totalQuestions. *)
Lemma compare_length_counterexample :
  declaredQuestions key2 = 2
  ∧ ∃ l, compare (Obj (<[1 := JNull]> (<[2 := JStr "B"]> ∅))) key2 = Ok l
         ∧ length l = 100%nat
         ∧ questionNumber <$> l ≠ seqZ 1 (declaredQuestions key2).
Proof.
  split; [reflexivity|].
  eexists. split; [vm_compute; reflexivity|]. split; [reflexivity|].
  vm_compute. discriminate.
Qed.

(** C8. For every detected-answer set (each entry the undetected marker,
    [null] or absent, or a non-empty answer string) and every answer key
    whose [answers] is an object, [compare] returns a list in which every
    entry is classified three ways: [status] is undetected iff
    [detectedAnswer] is the undetected marker; otherwise it is correct iff
    [detectedAnswer] equals [correctAnswer], and incorrect if not; and
    [isCorrect] is [true] exactly on the correct entries. *)
Theorem compare_status_classifies (detected : gmap Z jsval)
    (answerKey : answerKeyData) (correct : gmap Z jsval) :
  detected_set detected = true →
  answers answerKey = Obj correct →
  ∃ l, compare (Obj detected) answerKey = Ok l
       ∧ ∀ e, e ∈ l →
           (status e = Undetected ↔ nullish (detectedAnswer e) = true)
           ∧ (nullish (detectedAnswer e) = false →
                (status e = Correct ↔ detectedAnswer e = correctAnswer e)
                ∧ (status e = Incorrect ↔ detectedAnswer e ≠ correctAnswer e))
           ∧ (isCorrect e = JBool true ↔ status e = Correct).
Proof.
  intros Hset Hkey. unfold compare. rewrite Hkey, generateAnswerComparison_obj.
  eexists. split; [done|].
  intros e (q & -> & Hq%elem_of_sheetQuestions)%list_elem_of_fmap.
  destruct (entry_of_status detected correct q) as [Hst Hic];
    [by apply detected_set_value|].
  cbv zeta in Hst, Hic. rewrite Hst in *. clear Hst.
  destruct (nullish _); [|case_bool_decide as Heq];
    repeat split; try done; try apply Hic; try (intros; congruence).
Qed.

Lemma compare_status_classifies_witness :
  let detected : gmap Z jsval := <[1 := JNull]> (<[2 := JStr "B"]> ∅) in
  detected_set detected = true
  ∧ answers key2 = Obj (<[1 := JStr "A"]> (<[2 := JStr "B"]> ∅))
  ∧ ∃ l, compare (Obj detected) key2 = Ok l
       ∧ ∀ e, e ∈ l →
           (status e = Undetected ↔ nullish (detectedAnswer e) = true)
           ∧ (nullish (detectedAnswer e) = false →
                (status e = Correct ↔ detectedAnswer e = correctAnswer e)
                ∧ (status e = Incorrect ↔ detectedAnswer e ≠ correctAnswer e))
           ∧ (isCorrect e = JBool true ↔ status e = Correct).
Proof.
  intros detected.
  split; [vm_compute; reflexivity|]. split; [reflexivity|].
  apply (compare_status_classifies detected key2
           (<[1 := JStr "A"]> (<[2 := JStr "B"]> ∅)));
    [vm_compute|]; reflexivity.
Defined.

(** C10. The output of [generateAnswerComparison] does not depend on its
    [subjects] argument: any two values of it give the same outcome, and on
    objects the subject labels of the 100 entries are the five fixed blocks
    of twenty questions, in order. *)
Theorem generateAnswerComparison_ignores_subjects
    (detectedAnswers correctAnswers : jsobj) (s1 s2 : list subjectDecl) :
  generateAnswerComparison detectedAnswers correctAnswers s1
  = generateAnswerComparison detectedAnswers correctAnswers s2
  ∧ ∀ detected correct : gmap Z jsval,
      ∃ l, generateAnswerComparison (Obj detected) (Obj correct) s1 = Ok l
           ∧ subject <$> l
             = replicate 20 "Data Analytics" ++ replicate 20 "Machine Learning"
               ++ replicate 20 "Python Programming" ++ replicate 20 "Statistics"
               ++ replicate 20 "SQL & Databases".
Proof.
  split; [reflexivity|].
  intros detected correct. rewrite generateAnswerComparison_obj.
  eexists. split; [done|].
  rewrite <-list_fmap_compose.
  transitivity (subjectLabel <$> sheetQuestions); [by apply list_fmap_ext|].
  vm_compute. reflexivity.
Qed.

(** ** The handlers and the store *)

(** The failing paths: the store is untouched and the response is an error. *)
Local Ltac answered_with_error :=
  left; split; [reflexivity | eexists _, _; reflexivity].

(** C3, as amended. Every record the OMR route writes has status
    [completed]. Its score is populated exactly when the request's
    [answerKeyId] led to a stored value, and is then the result of
    [calculateScores]; it is [null] when no key was given or found. A
    request that fails is answered with an error and writes nothing: the
    store is left as it was, and no record with status [error] exists. *)
Theorem process_omr_writes_completed_records (w : world)
    (request : option omrBody) (st : gmap string stored) :
  let (response, st') := process_omr w request st in
  (st' = st ∧ ∃ message code, response = ErrorJson message code)
  ∨ ∃ body evaluationId e,
      request = Some body
      ∧ response = ProcessOk evaluationId e "OMR sheet processed successfully"
      ∧ st' = <[evaluationId := StoredEvaluation e]> st
      ∧ ev_status e = Completed
      ∧ match key_for (body_answerKeyId body) st with
        | Some key =>
            ∃ r, calculateScores (Obj (detectedAnswers e)) (stored_answers key)
                 = Ok r
                 ∧ evaluation e = Some r
        | None => evaluation e = None
        end.
Proof.
  unfold process_omr, try_catch, req_json, lift, kv_get, kv_set, key_for.
  unfold mbind, mret, handler_bind, handler_ret.
  generalize (simulateOMRProcessing (random w)) as detected.
  generalize ("evaluation_" +:+ pretty (now w)) as evaluationId.
  intros evaluationId detected.
  destruct request as [body|]; [|answered_with_error].
  destruct (negb (truthy (body_studentName body)) || _ || _);
    [answered_with_error|].
  destruct (truthy (body_answerKeyId body)) eqn:Hid.
  - destruct (get_up w); [|answered_with_error].
    destruct (match body_answerKeyId body with JStr k => st !! k | _ => None end)
      as [key|] eqn:Hkey.
    + destruct (calculateScores (Obj detected) (stored_answers key)) as [r|] eqn:Hr;
        [|answered_with_error].
      destruct (image_reference _); [|answered_with_error].
      destruct (set_up w); [|answered_with_error].
      right. eexists body, _, _. do 4 (split; [reflexivity|]).
      rewrite Hid, Hkey. exists r. split; [exact Hr|reflexivity].
    + destruct (image_reference _); [|answered_with_error].
      destruct (set_up w); [|answered_with_error].
      right. eexists body, _, _. do 4 (split; [reflexivity|]).
      rewrite Hid, Hkey. reflexivity.
  - destruct (image_reference _); [|answered_with_error].
    destruct (set_up w); [|answered_with_error].
    right. eexists body, _, _. do 4 (split; [reflexivity|]).
    rewrite Hid. reflexivity.
Qed.

(** C3 as stated fails: a sheet submitted without an answer key is stored
    with status [completed] and a [null] score. *)
Lemma process_omr_counterexample :
  ∃ st',
    process_omr sample_world (Some sample_sheet) ∅
    = (ProcessOk (ev_id stored_sheet) stored_sheet
         "OMR sheet processed successfully", st')
    ∧ st' !! ev_id stored_sheet = Some (StoredEvaluation stored_sheet)
    ∧ ev_status stored_sheet = Completed
    ∧ evaluation stored_sheet = None.
Proof.
  exists (<[ev_id stored_sheet := StoredEvaluation stored_sheet]> ∅).
  split; [reflexivity|]. split; [apply lookup_insert_eq|]. split; reflexivity.
Qed.

(** C5, as amended. Key creation does not compare the number of answers
    with [totalQuestions]: whenever [examName], [setVersion] and [answers]
    are present and the store accepts the write, the key is stored as
    submitted under a fresh id and the upload succeeds. The only rejection
    at key creation is "Missing required fields" (status 400), given
    exactly when one of those three fields is missing, and it leaves the
    store as it was. *)
Theorem upload_answer_key_checks_presence_only (w : world)
    (body : answerKeyBody) (st : gmap string stored) :
  (truthy (body_examName body) = true →
   truthy (body_setVersion body) = true →
   truthy_obj (body_answers body) = true →
   set_up w = true →
   ∃ answerKeyId key,
     upload_answer_key w (Some body) st
     = (UploadOk answerKeyId "Answer key uploaded successfully",
        <[answerKeyId := StoredKey key]> st)
     ∧ id key = answerKeyId
     ∧ totalQuestions key = body_totalQuestions body
     ∧ answers key = body_answers body
     ∧ subjects key = body_subjects body)
  ∧ (truthy (body_examName body) && truthy (body_setVersion body)
     && truthy_obj (body_answers body) = false →
     upload_answer_key w (Some body) st
     = (ErrorJson "Missing required fields" 400, st))
  ∧ (∀ message st',
       upload_answer_key w (Some body) st = (ErrorJson message 400, st') →
       truthy (body_examName body) && truthy (body_setVersion body)
       && truthy_obj (body_answers body) = false).
Proof.
  unfold upload_answer_key, try_catch, req_json, lift, kv_set.
  unfold mbind, mret, handler_bind, handler_ret.
  generalize ("answer_key_" +:+ pretty (now w)) as answerKeyId.
  intros answerKeyId.
  destruct (truthy (body_examName body)), (truthy (body_setVersion body)),
    (truthy_obj (body_answers body)); cbn [negb orb andb];
    (split; [|split]); try discriminate; try reflexivity.
  - intros _ _ _ ->. eexists _, _. split; [reflexivity|].
    repeat (split; [reflexivity|]). reflexivity.
  - intros message st'. destruct (set_up w); intros [= ]; lia.
Qed.

Lemma upload_answer_key_checks_presence_only_witness :
  (truthy (body_examName incomplete_upload) = true
   ∧ truthy (body_setVersion incomplete_upload) = true
   ∧ truthy_obj (body_answers incomplete_upload) = true
   ∧ set_up sample_world = true)
  ∧ ∃ answerKeyId key,
     upload_answer_key sample_world (Some incomplete_upload) ∅
     = (UploadOk answerKeyId "Answer key uploaded successfully",
        <[answerKeyId := StoredKey key]> ∅)
     ∧ id key = answerKeyId
     ∧ totalQuestions key = body_totalQuestions incomplete_upload
     ∧ answers key = body_answers incomplete_upload
     ∧ subjects key = body_subjects incomplete_upload.
Proof.
  split; [repeat split; reflexivity|].
  apply (upload_answer_key_checks_presence_only sample_world incomplete_upload ∅);
    reflexivity.
Defined.

(** C5 as stated fails: the 100-question key without an answer for
    question 50 is stored and the upload reports success. *)
Lemma upload_answer_key_counterexample :
  body_totalQuestions incomplete_upload = JNum 100
  ∧ body_answers incomplete_upload = Obj (delete 50 (all_A 100))
  ∧ size (delete 50 (all_A 100)) = 99%nat
  ∧ ∃ st',
      upload_answer_key sample_world (Some incomplete_upload) ∅
      = (UploadOk (id stored_incomplete_key) "Answer key uploaded successfully",
         st')
      ∧ st' !! id stored_incomplete_key = Some (StoredKey stored_incomplete_key)
      ∧ answers stored_incomplete_key = body_answers incomplete_upload.
Proof.
  split; [reflexivity|]. split; [reflexivity|].
  split; [vm_compute; reflexivity|].
  exists (<[id stored_incomplete_key := StoredKey stored_incomplete_key]> ∅).
  split; [reflexivity|]. split; [apply lookup_insert_eq|reflexivity].
Qed.

(** * Further properties of the scoring engine *)

(** ** When the two loops throw *)

Lemma prop_props_of o q : o ≠ Nullish → prop o q = Ok (lookup_prop (props_of o) q).
Proof. by destruct o. Qed.

Lemma calculateScores_props_of d c :
  d ≠ Nullish → c ≠ Nullish →
  calculateScores d c = calculateScores (Obj (props_of d)) (Obj (props_of c)).
Proof.
  intros Hd Hc. unfold calculateScores.
  rewrite (for_each_ext (score_step d c)
             (score_step (Obj (props_of d)) (Obj (props_of c)))); [done|].
  intros st q _. unfold score_step. by rewrite !prop_props_of.
Qed.

Lemma generateAnswerComparison_props_of d c declared :
  d ≠ Nullish → c ≠ Nullish →
  generateAnswerComparison d c declared
  = generateAnswerComparison (Obj (props_of d)) (Obj (props_of c)) declared.
Proof.
  intros Hd Hc. unfold generateAnswerComparison.
  apply for_each_ext. intros acc q _.
  unfold comparison_step. by rewrite !prop_props_of.
Qed.

(** X1. [calculateScores] and [generateAnswerComparison] throw exactly when
    one of their two tables is [undefined] or [null], and what they throw
    is a TypeError; on every other pair of arguments they return. *)
Theorem loops_throw_iff_table_missing (d c : jsobj) (declared : list subjectDecl) :
  match calculateScores d c with
  | Ok _ => d ≠ Nullish ∧ c ≠ Nullish
  | Throw e => e = TypeError ∧ (d = Nullish ∨ c = Nullish)
  end
  ∧ match generateAnswerComparison d c declared with
    | Ok _ => d ≠ Nullish ∧ c ≠ Nullish
    | Throw e => e = TypeError ∧ (d = Nullish ∨ c = Nullish)
    end.
Proof.
  assert (∀ o, o = Nullish ∨ o ≠ Nullish) as Hcases.
  { intros []; [by left|by right..]. }
  destruct (Hcases d) as [->|Hd].
  { split; (split; [reflexivity|by left]). }
  destruct (Hcases c) as [->|Hc].
  { destruct d; [done|..]; split; (split; [reflexivity|by right]). }
  rewrite calculateScores_props_of, generateAnswerComparison_props_of by done.
  rewrite calculateScores_obj, generateAnswerComparison_obj. done.
Qed.

(** ** Bounds and extreme sheets *)

Lemma count_questions_bounds p qs :
  0 ≤ count_questions p qs ≤ Z.of_nat (length qs).
Proof.
  unfold count_questions. split; [lia|].
  apply inj_le. induction qs as [|q qs IH]; simpl; [lia|].
  destruct (p q); simpl; lia.
Qed.


Lemma count_questions_false qs : count_questions (λ _, false) qs = 0.
Proof. unfold count_questions. by induction qs. Qed.


Lemma count_questions_none p qs :
  (∀ q, q ∈ qs → p q = false) → count_questions p qs = 0.
Proof.
  intros Hnone. rewrite (count_questions_ext p (λ _, false)); [|done].
  apply count_questions_false.
Qed.


Lemma elem_of_scoredSubjects s :
  s ∈ scoredSubjects ↔
  s = "Data Analytics" ∨ s = "Machine Learning" ∨ s = "Python Programming"
  ∨ s = "Statistics" ∨ s = "SQL & Databases".
Proof.
  unfold scoredSubjects. rewrite elem_of_list_to_set. simpl.
  rewrite !elem_of_cons, elem_of_nil. tauto.
Qed.

(** Each scored subject labels twenty questions of the sheet. *)
Lemma subject_block_size s :
  s ∈ scoredSubjects →
  count_questions (λ q, bool_decide (subjectLabel q = s)) sheetQuestions = 20.
Proof.
  rewrite elem_of_scoredSubjects.
  intros [->|[->|[->|[->| ->]]]]; vm_compute; reflexivity.
Qed.


Lemma tally_loop_idle detected correct qs st :
  (∀ q, q ∈ qs →
     counts (lookup_prop detected q) (lookup_prop correct q) = false) →
  foldl (tally detected correct) st qs = st.
Proof.
  revert st. induction qs as [|q qs IH]; intros st Hidle; simpl; [done|].
  unfold tally at 2. rewrite Hidle by left.
  apply IH. intros q' Hq'. apply Hidle. by right.
Qed.

(** X3. A sheet on which nothing was detected (every entry of 1..100
    [null], absent or otherwise falsy), and any sheet scored against a key
    without answers, gets the zero result: total 0 and each of the five
    subjects at 0. *)
Theorem calculateScores_blank (detected correct : gmap Z jsval) :
  (∀ q, 1 ≤ q ≤ 100 → truthy (lookup_prop detected q) = false)
  ∨ (∀ q, 1 ≤ q ≤ 100 → correct !! q = None) →
  calculateScores (Obj detected) (Obj correct) = Ok zeroScores.
Proof.
  intros Hblank. rewrite calculateScores_obj.
  rewrite tally_loop_idle; [done|].
  intros q Hq%elem_of_sheetQuestions. rewrite counts_unfold.
  destruct Hblank as [Hd|Hc].
  - by rewrite Hd.
  - assert (lookup_prop correct q = JUndefined) as ->.
    { unfold lookup_prop. by rewrite Hc. }
    destruct (lookup_prop detected q); simpl; try done; apply andb_false_r.
Qed.

Lemma calculateScores_blank_witness :
  ((∀ q, 1 ≤ q ≤ 100 → truthy (lookup_prop (∅ : gmap Z jsval) q) = false)
   ∨ (∀ q, 1 ≤ q ≤ 100 → all_A 100 !! q = None))
  ∧ calculateScores (Obj ∅) (Obj (all_A 100)) = Ok zeroScores.
Proof.
  assert (∀ q, 1 ≤ q ≤ 100 → truthy (lookup_prop (∅ : gmap Z jsval) q) = false)
    as Hblank by done.
  split; [by left|].
  exact (calculateScores_blank ∅ (all_A 100) (or_introl Hblank)).
Defined.


Lemma sheet_forall (p : Z → bool) :
  forallb p sheetQuestions = true → ∀ q, 1 ≤ q ≤ 100 → p q = true.
Proof.
  rewrite forallb_forall. intros Hall q Hq.
  apply Hall, list_elem_of_In, elem_of_sheetQuestions, Hq.
Qed.


(** ** The comparison agrees with the score *)

Lemma filter_fmap {A B : Type} (f : A → B) (p : B → bool) (l : list A) :
  List.filter p (f <$> l) = f <$> List.filter (λ x, p (f x)) l.
Proof.
  induction l as [|x l IH]; csimpl; [done|].
  destruct (p (f x)); csimpl; by rewrite IH.
Qed.

Lemma filter_filter {A : Type} (p1 p2 : A → bool) (l : list A) :
  List.filter p1 (List.filter p2 l) = List.filter (λ x, p1 x && p2 x) l.
Proof.
  induction l as [|x l IH]; simpl; [done|].
  destruct (p2 x); simpl.
  - rewrite andb_true_r. destruct (p1 x); by rewrite IH.
  - by rewrite andb_false_r.
Qed.

Lemma filter_ext_bool {A : Type} (p1 p2 : A → bool) (l : list A) :
  (∀ x, p1 x = p2 x) → List.filter p1 l = List.filter p2 l.
Proof.
  intros Hext. induction l as [|x l IH]; simpl; [done|].
  by rewrite Hext, IH.
Qed.

Lemma entry_of_correct detected correct q :
  bool_decide (status (entry_of detected correct q) = Correct)
  = counts (lookup_prop detected q) (lookup_prop correct q).
Proof.
  unfold entry_of, counts. cbn [status]. unfold js_and.
  destruct (truthy (lookup_prop detected q)) eqn:Ht; rewrite ?Ht; [|done].
  cbn [truthy]. by destruct (strict_eq _ _).
Qed.

Lemma count_correct_entries detected correct qs :
  Z.of_nat (count_status Correct (entry_of detected correct <$> qs))
  = count_questions
      (λ q, counts (lookup_prop detected q) (lookup_prop correct q)) qs.
Proof.
  unfold count_status, count_questions.
  rewrite filter_fmap, length_fmap. do 2 f_equal.
  apply filter_ext_bool. intros q. apply entry_of_correct.
Qed.

Lemma count_status_partition l :
  (count_status Correct l + count_status Incorrect l
   + count_status Undetected l)%nat = length l.
Proof.
  unfold count_status. induction l as [|a l IH]; simpl; [done|].
  destruct (status a); simpl; lia.
Qed.

(** X5. The comparison and the score of the same two tables agree: the
    comparison has 100 entries, each correct, incorrect or undetected, and
    the number of correct ones is the [totalScore] that [calculateScores]
    returns. *)
Theorem report_summary_matches_score (detected correct : gmap Z jsval)
    (declared : list subjectDecl) :
  ∃ r l, calculateScores (Obj detected) (Obj correct) = Ok r
         ∧ generateAnswerComparison (Obj detected) (Obj correct) declared = Ok l
         ∧ summary_total (report_summary l) = 100%nat
         ∧ Z.of_nat (summary_correct (report_summary l)) = totalScore r
         ∧ (summary_correct (report_summary l)
            + summary_incorrect (report_summary l)
            + summary_undetected (report_summary l))%nat = 100%nat.
Proof.
  destruct (calculateScores_total detected correct) as (r & Hr & Ht).
  exists r, (entry_of detected correct <$> sheetQuestions).
  split; [done|]. split; [apply generateAnswerComparison_obj|].
  cbn [report_summary summary_total summary_correct summary_incorrect
       summary_undetected].
  split; [by rewrite length_fmap|]. split.
  - by rewrite count_correct_entries.
  - rewrite count_status_partition. by rewrite length_fmap.
Qed.

Lemma subject_entries_correct detected correct s qs :
  Z.of_nat (count_status Correct
              (List.filter (λ a, bool_decide (subject a = s))
                           (entry_of detected correct <$> qs)))
  = count_questions
      (λ q, counts (lookup_prop detected q) (lookup_prop correct q)
            && bool_decide (subjectLabel q = s)) qs.
Proof.
  unfold count_status, count_questions.
  rewrite (filter_fmap _ (λ a, bool_decide (subject a = s))).
  rewrite filter_fmap, length_fmap, filter_filter. do 2 f_equal.
  apply filter_ext_bool. intros q. by rewrite entry_of_correct.
Qed.

Lemma subject_entries_total detected correct s :
  s ∈ scoredSubjects →
  length (List.filter (λ a, bool_decide (subject a = s))
                      (entry_of detected correct <$> sheetQuestions)) = 20%nat.
Proof.
  intros Hs. rewrite filter_fmap, length_fmap. cbn [subject entry_of].
  apply Nat2Z.inj. exact (subject_block_size s Hs).
Qed.

Lemma comparison_subjects detected correct :
  distinct (subject <$> (entry_of detected correct <$> sheetQuestions))
  = demoSubjects.
Proof.
  rewrite <-list_fmap_compose.
  transitivity (distinct (subjectLabel <$> sheetQuestions)).
  - reflexivity.
  - vm_compute. reflexivity.
Qed.

(** X6. The per-subject statistics that the comparison view derives from a
    comparison of the server list the five subjects in their order on the
    sheet, each with 20 questions, and the number of correct answers shown
    for a subject is that subject's entry in the [subjectScores] that
    [calculateScores] returns for the same two tables. *)
Theorem subjectStats_match_subjectScores (detected correct : gmap Z jsval)
    (declared : list subjectDecl) :
  ∃ r l, calculateScores (Obj detected) (Obj correct) = Ok r
         ∧ generateAnswerComparison (Obj detected) (Obj correct) declared = Ok l
         ∧ stat_subject <$> subjectStats l
           = ["Data Analytics"; "Machine Learning"; "Python Programming";
              "Statistics"; "SQL & Databases"]
         ∧ ∀ st, st ∈ subjectStats l →
             stat_total st = 20%nat
             ∧ subjectScores r !! stat_subject st
               = Some (Z.of_nat (stat_correct st)).
Proof.
  destruct (calculateScores_total detected correct) as (r & Hr & _).
  exists r, (entry_of detected correct <$> sheetQuestions).
  split; [done|]. split; [apply generateAnswerComparison_obj|].
  unfold subjectStats. rewrite comparison_subjects. split; [reflexivity|].
  intros st (s & -> & Hs)%list_elem_of_fmap.
  assert (s ∈ scoredSubjects) as Hscored.
  { apply elem_of_list_to_set. exact Hs. }
  cbn [stat_total stat_correct stat_subject]. split.
  - by apply subject_entries_total.
  - rewrite subject_entries_correct.
    destruct (calculateScores_subject detected correct s Hscored)
      as (r' & Hr' & Hv).
    congruence.
Qed.

(** ** The three subject tables *)

Lemma find_outside_sheet q :
  ¬ (1 ≤ q ≤ 100) → List.find (in_range q) subjectRanges = None.
Proof.
  intros Hq. unfold subjectRanges, in_range.
  cbn [List.find range_start range_end].
  destruct (Z.le_gt_cases 1 q) as [Hlo|Hlo].
  - rewrite !(proj2 (Z.leb_gt q _)) by lia. by rewrite !andb_false_r.
  - by rewrite !(proj2 (Z.leb_gt _ q)) by lia.
Qed.

Lemma demo_subject_outside_sheet q : ¬ (1 ≤ q ≤ 100) → demo_subject q = None.
Proof.
  intros Hq. unfold demo_subject. cbv zeta.
  destruct (Z.ltb_spec ((q - 1) `div` 20) 0) as [Hneg|Hpos]; [done|].
  apply lookup_ge_None. cbn [length demoSubjects].
  assert (0 ≤ q - 1).
  { destruct (Z.le_gt_cases 0 (q - 1)) as [?|Hlt]; [done|].
    pose proof (Z.div_lt_upper_bound (q - 1) 20 0). lia. }
  assert (5 ≤ (q - 1) `div` 20); [|lia].
  apply Z.div_le_lower_bound; lia.
Qed.

(** X7. The three places that assign a subject to a question agree on the
    sheet: for every question of 1..100 the range table searched by
    [calculateScores], the threshold chain of [generateAnswerComparison]
    and the index computation of the client's stand-in comparison name the
    same subject. Off the sheet they part: the chain still names a subject
    while the other two give none. *)
Theorem subject_tables_agree (q : Z) :
  if bool_decide (1 ≤ q ≤ 100)
  then range_subject <$> List.find (in_range q) subjectRanges
       = Some (subjectLabel q)
       ∧ demo_subject q = Some (subjectLabel q)
  else List.find (in_range q) subjectRanges = None
       ∧ demo_subject q = None
       ∧ subjectLabel q ∈ scoredSubjects.
Proof.
  case_bool_decide as Hq.
  - destruct (find_subjectRange q Hq) as (r & -> & _ & Hr).
    split; [by rewrite <-Hr|].
    assert (forallb (λ q, bool_decide (demo_subject q = Some (subjectLabel q)))
                    sheetQuestions = true) as Hall by (vm_compute; reflexivity).
    apply (sheet_forall _ Hall) in Hq. by apply bool_decide_eq_true in Hq.
  - split; [by apply find_outside_sheet|].
    split; [by apply demo_subject_outside_sheet|].
    apply subjectLabel_scored.
Qed.

(** ** The simulated reader's sheet *)

Lemma simulated_answer_values d :
  simulated_answer d ∈ [JNull; JStr "A"; JStr "B"; JStr "C"; JStr "D"].
Proof.
  unfold simulated_answer. destruct (draw_detected d); [|by left].
  pose proof (Nat.mod_upper_bound (draw_option d) 4) as Hlt.
  destruct (draw_option d `mod` 4)%nat as [|[|[|[|n]]]]; simpl;
    [by repeat constructor..|lia].
Qed.

(** X8. Whatever the random draws, the simulated reader returns a table
    with an entry for exactly the question numbers 1..100, and every entry
    is [null] or one of the letters A, B, C, D. *)
Theorem simulateOMRProcessing_fills_the_sheet (random : Z → draw) :
  (∀ q, is_Some (simulateOMRProcessing random !! q) ↔ 1 ≤ q ≤ 100)
  ∧ size (simulateOMRProcessing random) = 100%nat
  ∧ ∀ q v, simulateOMRProcessing random !! q = Some v →
      v ∈ [JNull; JStr "A"; JStr "B"; JStr "C"; JStr "D"].
Proof.
  assert (∀ q, simulateOMRProcessing random !! q
               = if decide (q ∈ sheetQuestions)
                 then Some (simulated_answer (random q)) else None) as Hlookup.
  { intros q. unfold simulateOMRProcessing.
    by rewrite foldl_insert_lookup, lookup_empty. }
  assert (∀ q, is_Some (simulateOMRProcessing random !! q) ↔ 1 ≤ q ≤ 100)
    as Hdom.
  { intros q. rewrite Hlookup, <-elem_of_sheetQuestions.
    destruct (decide (q ∈ sheetQuestions)); split; intros H;
      first [done | by eexists | by destruct H]. }
  split; [exact Hdom|]. split.
  - assert (dom (simulateOMRProcessing random)
            = (list_to_set sheetQuestions : gset Z)) as Hset.
    { apply set_eq. intros q.
      rewrite elem_of_dom, Hdom, elem_of_list_to_set.
      by rewrite elem_of_sheetQuestions. }
    rewrite <-size_dom, Hset, size_list_to_set by apply NoDup_seqZ.
    reflexivity.
  - intros q v. rewrite Hlookup.
    destruct (decide (q ∈ sheetQuestions)); [|done].
    intros [= <-]. apply simulated_answer_values.
Qed.

(** ** The stored image reference *)

Lemma length_append s1 s2 :
  String.length (s1 +:+ s2) = (String.length s1 + String.length s2)%nat.
Proof. induction s1 as [|a s1 IH]; simpl; [done|]. by rewrite IH. Qed.

Lemma length_substring_0 n s :
  String.length (String.substring 0 n s) = (n `min` String.length s)%nat.
Proof.
  revert s. induction n as [|n IH]; intros [|a s]; simpl; try done.
  by rewrite IH.
Qed.

Lemma substring_0_all n s :
  (String.length s ≤ n)%nat → String.substring 0 n s = s.
Proof.
  revert s. induction n as [|n IH]; intros [|a s]; simpl; try done; [lia|].
  intros Hlen. rewrite IH; [done|lia].
Qed.

(** X9. A record stored by the OMR route never holds more than the first
    50 characters of the submitted image: its [imageData] is that prefix
    followed by three dots, hence at most 53 characters, and is the whole
    image followed by the dots when the image has at most 50 characters. *)
Theorem process_omr_stores_image_reference (w : world) (body : omrBody)
    (st st' : gmap string stored) (evaluationId message : string)
    (e : evaluationData) :
  process_omr w (Some body) st = (ProcessOk evaluationId e message, st') →
  ∃ image,
    body_imageData body = JStr image
    ∧ imageData e = String.substring 0 50 image +:+ "..."
    ∧ (String.length (imageData e) ≤ 53)%nat
    ∧ ((String.length image ≤ 50)%nat → imageData e = image +:+ "...").
Proof.
  unfold process_omr, try_catch, req_json, lift, kv_get, kv_set.
  unfold mbind, mret, handler_bind, handler_ret.
  generalize (simulateOMRProcessing (random w)) as detected.
  generalize ("evaluation_" +:+ pretty (now w)) as newId.
  intros newId detected.
  destruct (negb (truthy (body_studentName body)) || _ || _); [done|].
  assert (∀ reference,
            image_reference (body_imageData body) = Ok reference →
            imageData e = reference →
            ∃ image,
              body_imageData body = JStr image
              ∧ imageData e = String.substring 0 50 image +:+ "..."
              ∧ (String.length (imageData e) ≤ 53)%nat
              ∧ ((String.length image ≤ 50)%nat → imageData e = image +:+ "..."))
    as Hreference.
  { intros reference Href He. unfold image_reference in Href.
    destruct (body_imageData body) as [| | | |image|]; try done.
    injection Href as <-. exists image. split; [done|]. split; [done|].
    rewrite He. split.
    - rewrite length_append, length_substring_0.
      change (String.length "...") with 3%nat.
      pose proof (Nat.le_min_l 50 (String.length image)). lia.
    - intros Hlen. by rewrite substring_0_all. }
  destruct (truthy (body_answerKeyId body)).
  - destruct (get_up w); [|done].
    destruct (match body_answerKeyId body with JStr k => st !! k | _ => None end).
    + destruct (calculateScores _ _); [|done].
      destruct (image_reference _) as [reference|] eqn:Href; [|done].
      destruct (set_up w); [|done].
      intros [= _ <- _ _]. by apply (Hreference reference).
    + destruct (image_reference _) as [reference|] eqn:Href; [|done].
      destruct (set_up w); [|done].
      intros [= _ <- _ _]. by apply (Hreference reference).
  - destruct (image_reference _) as [reference|] eqn:Href; [|done].
    destruct (set_up w); [|done].
    intros [= _ <- _ _]. by apply (Hreference reference).
Qed.

Lemma process_omr_stores_image_reference_witness :
  process_omr sample_world (Some sample_sheet) ∅
  = (ProcessOk (ev_id stored_sheet) stored_sheet
       "OMR sheet processed successfully",
     <[ev_id stored_sheet := StoredEvaluation stored_sheet]> ∅)
  ∧ ∃ image,
      body_imageData sample_sheet = JStr image
      ∧ imageData stored_sheet = String.substring 0 50 image +:+ "..."
      ∧ (String.length (imageData stored_sheet) ≤ 53)%nat
      ∧ ((String.length image ≤ 50)%nat → imageData stored_sheet = image +:+ "...").
Proof.
  split; [reflexivity|].
  apply (process_omr_stores_image_reference sample_world sample_sheet ∅
           (<[ev_id stored_sheet := StoredEvaluation stored_sheet]> ∅)
           (ev_id stored_sheet) "OMR sheet processed successfully" stored_sheet).
  reflexivity.
Defined.

(** ** How the OMR route answers *)

Lemma scoring_outcome detected c :
  (c = Nullish ∧ calculateScores (Obj detected) c = Throw TypeError)
  ∨ (c ≠ Nullish ∧ ∃ r, calculateScores (Obj detected) c = Ok r).
Proof.
  destruct c as [| |m].
  - left. by split.
  - right. split; [done|].
    rewrite (calculateScores_props_of (Obj detected) FalsyPrimitive) by done.
    rewrite calculateScores_obj. by eexists.
  - right. split; [done|]. rewrite calculateScores_obj. by eexists.
Qed.

Lemma comparison_outcome detected c declared :
  (c = Nullish
   ∧ generateAnswerComparison (Obj detected) c declared = Throw TypeError)
  ∨ (c ≠ Nullish
     ∧ generateAnswerComparison (Obj detected) c declared
       = Ok (entry_of detected (props_of c) <$> sheetQuestions)).
Proof.
  destruct c as [| |m].
  - left. by split.
  - right. split; [done|].
    rewrite (generateAnswerComparison_props_of (Obj detected) FalsyPrimitive)
      by done.
    apply generateAnswerComparison_obj.
  - right. split; [done|]. apply generateAnswerComparison_obj.
Qed.

(** X10. The OMR route answers 400 "Missing required fields" exactly for a
    parsed request without a student name, roll number or image; it
    answers 500 exactly when the body does not parse, the store is down
    when it is needed, the given [answerKeyId] leads to a stored value
    without answers, or the image is not a string; in every other case it
    succeeds. *)
Theorem process_omr_response (w : world) (request : option omrBody)
    (st : gmap string stored) :
  match (process_omr w request st).1 with
  | ProcessOk _ _ _ =>
      ∃ body image,
        request = Some body
        ∧ missing_omr_fields body = false
        ∧ body_imageData body = JStr image
        ∧ set_up w = true
        ∧ (truthy (body_answerKeyId body) = true → get_up w = true)
        ∧ ∀ key, key_for (body_answerKeyId body) st = Some key →
            stored_answers key ≠ Nullish
  | ErrorJson message code =>
      (code = 400 ∧ message = "Missing required fields"
       ∧ ∃ body, request = Some body ∧ missing_omr_fields body = true)
      ∨ (code = 500 ∧ message = "Failed to process OMR sheet"
         ∧ (request = None
            ∨ ∃ body,
                request = Some body
                ∧ missing_omr_fields body = false
                ∧ ((truthy (body_answerKeyId body) = true ∧ get_up w = false)
                   ∨ (∃ key, key_for (body_answerKeyId body) st = Some key
                             ∧ stored_answers key = Nullish)
                   ∨ (∀ image, body_imageData body ≠ JStr image)
                   ∨ set_up w = false)))
  | UploadOk _ _ => False
  end.
Proof.
  unfold process_omr, try_catch, req_json, lift, kv_get, kv_set, key_for.
  unfold mbind, mret, handler_bind, handler_ret.
  generalize (simulateOMRProcessing (random w)) as detected.
  generalize ("evaluation_" +:+ pretty (now w)) as evaluationId.
  intros evaluationId detected.
  destruct request as [body|]; cbn [fst]; [|right; by eauto].
  fold (missing_omr_fields body).
  destruct (missing_omr_fields body) eqn:Hmissing; cbn [fst];
    [left; by eauto|].
  assert (match image_reference (body_imageData body) with
          | Ok _ => ∃ image, body_imageData body = JStr image
          | Throw _ => ∀ image, body_imageData body ≠ JStr image
          end) as Himage.
  { unfold image_reference. destruct (body_imageData body); by eauto. }
  destruct (truthy (body_answerKeyId body)) eqn:Hid.
  - destruct (get_up w) eqn:Hget; cbn [fst];
      [|right; do 2 (split; [done|]); right; exists body; by eauto 10].
    destruct (match body_answerKeyId body with JStr k => st !! k | _ => None end)
      as [key|] eqn:Hkey.
    + destruct (scoring_outcome detected (stored_answers key))
        as [[Hc ->]|[Hc [r ->]]]; cbn [fst].
      { right. do 2 (split; [done|]). right. exists body.
        do 2 (split; [done|]). right. left. exists key. by rewrite Hid. }
      destruct (image_reference _); cbn [fst];
        [|right; do 2 (split; [done|]); right; exists body; by eauto 10].
      destruct Himage as [image Himage].
      destruct (set_up w) eqn:Hset; cbn [fst];
        [|right; do 2 (split; [done|]); right; exists body; by eauto 10].
      exists body, image. do 5 (split; [done|]).
      intros key' Heq. rewrite Hid, Hkey in Heq. by simplify_eq.
    + destruct (image_reference _); cbn [fst];
        [|right; do 2 (split; [done|]); right; exists body; by eauto 10].
      destruct Himage as [image Himage].
      destruct (set_up w) eqn:Hset; cbn [fst];
        [|right; do 2 (split; [done|]); right; exists body; by eauto 10].
      exists body, image. do 5 (split; [done|]).
      intros key' Heq. rewrite Hid, Hkey in Heq. by simplify_eq.
  - destruct (image_reference _); cbn [fst];
      [|right; do 2 (split; [done|]); right; exists body; by eauto 10].
    destruct Himage as [image Himage].
    destruct (set_up w) eqn:Hset; cbn [fst];
      [|right; do 2 (split; [done|]); right; exists body; by eauto 10].
    exists body, image. do 4 (split; [done|]). split; [intros; congruence|].
    intros key' Heq. by rewrite Hid in Heq.
Qed.

(** ** The successful paths of the two POST routes *)

Lemma upload_answer_key_ok w body st :
  truthy (body_examName body) = true →
  truthy (body_setVersion body) = true →
  truthy_obj (body_answers body) = true →
  set_up w = true →
  upload_answer_key w (Some body) st
  = (UploadOk (id (answerKeyData_of w body)) "Answer key uploaded successfully",
     <[id (answerKeyData_of w body) := StoredKey (answerKeyData_of w body)]> st).
Proof.
  intros Hname Hversion Hanswers Hset.
  unfold upload_answer_key, try_catch, req_json, lift, kv_set.
  unfold mbind, mret, handler_bind, handler_ret.
  by rewrite Hname, Hversion, Hanswers, Hset.
Qed.

Lemma process_omr_ok w body st image evaluation :
  missing_omr_fields body = false →
  body_imageData body = JStr image →
  (truthy (body_answerKeyId body) = true → get_up w = true) →
  set_up w = true →
  match key_for (body_answerKeyId body) st with
  | Some key =>
      ∃ r, calculateScores (Obj (simulateOMRProcessing (random w)))
                           (stored_answers key) = Ok r
           ∧ evaluation = Some r
  | None => evaluation = None
  end →
  let e := evaluationData_of w body evaluation
             (String.substring 0 50 image +:+ "...") in
  process_omr w (Some body) st
  = (ProcessOk (ev_id e) e "OMR sheet processed successfully",
     <[ev_id e := StoredEvaluation e]> st).
Proof.
  intros Hmissing Himage Hget Hset Hscore e. subst e.
  unfold process_omr, try_catch, req_json, lift, kv_get, kv_set.
  unfold mbind, mret, handler_bind, handler_ret, evaluationData_of.
  cbn [ev_id]. unfold key_for in Hscore.
  generalize dependent (simulateOMRProcessing (random w)).
  generalize ("evaluation_" +:+ pretty (now w)) as evaluationId.
  intros evaluationId detected Hscore.
  fold (missing_omr_fields body). rewrite Hmissing, Himage.
  cbn [image_reference].
  destruct (truthy (body_answerKeyId body)).
  - rewrite Hget by done.
    destruct (match body_answerKeyId body with JStr k => st !! k | _ => None end)
      as [key|].
    + destruct Hscore as (r & -> & ->). by rewrite Hset.
    + by rewrite Hscore, Hset.
  - by rewrite Hscore, Hset.
Qed.

(** ** The comparison route *)

(** X11. The comparison route never writes. It answers 404 exactly when the
    store holds nothing under the given id; 500 exactly when the store is
    down or the evaluation's [answerKeyId] leads to a stored value without
    answers; and otherwise returns the stored record together with the
    comparison of its detected answers against the key it names, or with
    [null] when it names no stored key. *)
Theorem get_answer_comparison_response (w : world) (evaluationId : string)
    (st : gmap string stored) :
  let (response, st') := get_answer_comparison w evaluationId st in
  st' = st
  ∧ match response with
    | ComparisonJson ev answerComparison =>
        get_up w = true
        ∧ st !! evaluationId = Some ev
        ∧ match key_for (stored_answerKeyId ev) st with
          | Some key =>
              ∃ l, generateAnswerComparison (stored_detectedAnswers ev)
                     (stored_answers key) (stored_subjects key) = Ok l
                   ∧ answerComparison = Some l
          | None => answerComparison = None
          end
    | QueryError message code =>
        (code = 404 ∧ message = "Evaluation not found"
         ∧ get_up w = true ∧ st !! evaluationId = None)
        ∨ (code = 500 ∧ message = "Failed to fetch answer comparison"
           ∧ (get_up w = false
              ∨ ∃ ev key,
                  st !! evaluationId = Some ev
                  ∧ key_for (stored_answerKeyId ev) st = Some key
                  ∧ stored_answers key = Nullish))
    | _ => False
    end.
Proof.
  unfold get_answer_comparison, try_catch_query, lift, kv_get, key_for.
  unfold mbind, mret, handler_bind, handler_ret.
  destruct (get_up w) eqn:Hget;
    [|split; [done|]; right; do 2 (split; [done|]); by left].
  destruct (st !! evaluationId) as [ev|] eqn:Hev;
    [|split; [done|]; left; by repeat split].
  destruct (truthy (stored_answerKeyId ev)) eqn:Hid;
    [|do 3 (split; [done|]); by rewrite Hid].
  destruct (match stored_answerKeyId ev with JStr k => st !! k | _ => None end)
    as [key|] eqn:Hkey; [|do 3 (split; [done|]); by rewrite Hid, Hkey].
  destruct ev as [k|e]; [done|]. cbn [stored_detectedAnswers].
  destruct (comparison_outcome (detectedAnswers e) (stored_answers key)
              (stored_subjects key)) as [[Hc Hthrow]|[Hc Hok]].
  - rewrite Hthrow. split; [done|]. right. do 2 (split; [done|]). right.
    exists (StoredEvaluation e), key. split; [done|]. by rewrite Hid, Hkey.
  - rewrite Hok. do 3 (split; [done|]). rewrite Hid, Hkey.
    eexists. split; [|done]. exact Hok.
Qed.

Lemma get_answer_comparison_ok w evaluationId st e key :
  get_up w = true →
  st !! evaluationId = Some (StoredEvaluation e) →
  key_for (answerKeyId e) st = Some key →
  stored_answers key ≠ Nullish →
  get_answer_comparison w evaluationId st
  = (ComparisonJson (StoredEvaluation e)
       (Some (entry_of (detectedAnswers e) (props_of (stored_answers key))
              <$> sheetQuestions)), st).
Proof.
  intros Hget Hev Hkey Hanswers.
  unfold get_answer_comparison, try_catch_query, lift, kv_get.
  unfold mbind, mret, handler_bind, handler_ret.
  rewrite Hget, Hev. cbn [stored_answerKeyId stored_detectedAnswers].
  unfold key_for in Hkey.
  destruct (truthy (answerKeyId e)); [|done]. rewrite Hkey.
  destruct (comparison_outcome (detectedAnswers e) (stored_answers key)
              (stored_subjects key)) as [[Hc _]|[_ ->]]; done.
Qed.

Lemma route_ids_differ a b : "answer_key_" +:+ a ≠ "evaluation_" +:+ b.
Proof. discriminate. Qed.

(** X12. Upload, process, compare. When a key with an answer table is
    uploaded, a sheet is then processed with the id the upload returned,
    and the comparison of the resulting evaluation is then fetched (the
    store answering throughout), the stored score is the score of the
    simulated sheet against the uploaded answers, the comparison is that of
    the same sheet against the same answers, and the number of correct
    entries in the comparison equals the stored [totalScore]. *)
Theorem upload_process_compare (w1 w2 w3 : world) (keyBody : answerKeyBody)
    (omrData : omrBody) (image : string) (correct : gmap Z jsval)
    (st : gmap string stored) :
  truthy (body_examName keyBody) = true →
  truthy (body_setVersion keyBody) = true →
  body_answers keyBody = Obj correct →
  missing_omr_fields omrData = false →
  body_imageData omrData = JStr image →
  set_up w1 = true → get_up w2 = true → set_up w2 = true → get_up w3 = true →
  ∃ answerKeyId st1 evaluationId e st2 r l,
    upload_answer_key w1 (Some keyBody) st
    = (UploadOk answerKeyId "Answer key uploaded successfully", st1)
    ∧ process_omr w2 (Some (processData omrData answerKeyId)) st1
      = (ProcessOk evaluationId e "OMR sheet processed successfully", st2)
    ∧ evaluation e = Some r
    ∧ calculateScores (Obj (detectedAnswers e)) (Obj correct) = Ok r
    ∧ get_answer_comparison w3 evaluationId st2
      = (ComparisonJson (StoredEvaluation e) (Some l), st2)
    ∧ generateAnswerComparison (Obj (detectedAnswers e)) (Obj correct)
        (body_subjects keyBody) = Ok l
    ∧ Z.of_nat (count_status Correct l) = totalScore r.
Proof.
  intros Hname Hversion Hanswers Hmissing Himage Hset1 Hget2 Hset2 Hget3.
  set (key := answerKeyData_of w1 keyBody).
  set (detected := simulateOMRProcessing (random w2)).
  destruct (calculateScores_total detected correct) as (r & Hr & Ht).
  set (e := evaluationData_of w2 (processData omrData (id key)) (Some r)
              (String.substring 0 50 image +:+ "...")).
  set (st1 := <[id key := StoredKey key]> st).
  assert (key_for (JStr (id key)) st1 = Some (StoredKey key)) as Hkey1.
  { unfold key_for, st1. cbn [truthy id key answerKeyData_of].
    apply lookup_insert_eq. }
  assert (key_for (JStr (id key)) (<[ev_id e := StoredEvaluation e]> st1)
          = Some (StoredKey key)) as Hkey2.
  { unfold key_for. cbn [truthy id key answerKeyData_of].
    rewrite lookup_insert_ne; [apply lookup_insert_eq|].
    intros Heq. symmetry in Heq. by apply route_ids_differ in Heq. }
  exists (id key), st1, (ev_id e), e, (<[ev_id e := StoredEvaluation e]> st1),
    r, (entry_of detected correct <$> sheetQuestions).
  split; [apply upload_answer_key_ok; try done; by rewrite Hanswers|].
  split.
  { apply (process_omr_ok w2 (processData omrData (id key)) st1 image (Some r));
      try done.
    cbn [processData body_answerKeyId]. rewrite Hkey1.
    exists r. split; [|done].
    cbn [stored_answers key answerKeyData_of answers]. by rewrite Hanswers. }
  split; [done|]. split; [exact Hr|]. split.
  { rewrite (get_answer_comparison_ok w3 (ev_id e) _ e (StoredKey key));
      try done.
    - cbn [stored_answers key answerKeyData_of answers]. by rewrite Hanswers.
    - apply lookup_insert_eq.
    - cbn [stored_answers key answerKeyData_of answers]. by rewrite Hanswers. }
  split; [apply generateAnswerComparison_obj|].
  by rewrite count_correct_entries.
Qed.

Lemma upload_process_compare_witness :
  (truthy (body_examName incomplete_upload) = true
   ∧ truthy (body_setVersion incomplete_upload) = true
   ∧ body_answers incomplete_upload = Obj (delete 50 (all_A 100))
   ∧ missing_omr_fields sample_sheet = false
   ∧ body_imageData sample_sheet = JStr "data:image/png;base64,iVBORw0KGgo"
   ∧ set_up sample_world = true ∧ get_up sample_world = true)
  ∧ ∃ answerKeyId st1 evaluationId e st2 r l,
    upload_answer_key sample_world (Some incomplete_upload) ∅
    = (UploadOk answerKeyId "Answer key uploaded successfully", st1)
    ∧ process_omr sample_world (Some (processData sample_sheet answerKeyId)) st1
      = (ProcessOk evaluationId e "OMR sheet processed successfully", st2)
    ∧ evaluation e = Some r
    ∧ calculateScores (Obj (detectedAnswers e)) (Obj (delete 50 (all_A 100)))
      = Ok r
    ∧ get_answer_comparison sample_world evaluationId st2
      = (ComparisonJson (StoredEvaluation e) (Some l), st2)
    ∧ generateAnswerComparison (Obj (detectedAnswers e))
        (Obj (delete 50 (all_A 100))) (body_subjects incomplete_upload) = Ok l
    ∧ Z.of_nat (count_status Correct l) = totalScore r.
Proof.
  split; [repeat split; reflexivity|].
  apply (upload_process_compare sample_world sample_world sample_world
           incomplete_upload sample_sheet "data:image/png;base64,iVBORw0KGgo"
           (delete 50 (all_A 100)) ∅); reflexivity.
Defined.

(** ** What the routes leave in the store *)

Lemma upload_answer_key_inv w request st answerKeyId message st' :
  upload_answer_key w request st = (UploadOk answerKeyId message, st') →
  ∃ body, request = Some body
          ∧ answerKeyId = id (answerKeyData_of w body)
          ∧ st' = <[answerKeyId := StoredKey (answerKeyData_of w body)]> st.
Proof.
  unfold upload_answer_key, try_catch, req_json, lift, kv_set.
  unfold mbind, mret, handler_bind, handler_ret.
  destruct request as [body|]; [|done].
  destruct (negb (truthy (body_examName body)) || _ || _); [done|].
  destruct (set_up w); [|done].
  intros [= <- _ <-]. by exists body.
Qed.

Lemma process_omr_inv w request st evaluationId e message st' :
  process_omr w request st = (ProcessOk evaluationId e message, st') →
  evaluationId = "evaluation_" +:+ pretty (now w)
  ∧ ev_id e = evaluationId
  ∧ st' = <[evaluationId := StoredEvaluation e]> st.
Proof.
  unfold process_omr, try_catch, req_json, lift, kv_get, kv_set.
  unfold mbind, mret, handler_bind, handler_ret.
  generalize (simulateOMRProcessing (random w)) as detected.
  generalize ("evaluation_" +:+ pretty (now w)) as newId.
  intros newId detected.
  destruct request as [body|]; [|done].
  destruct (negb (truthy (body_studentName body)) || _ || _); [done|].
  destruct (truthy (body_answerKeyId body)).
  - destruct (get_up w); [|done].
    destruct (match body_answerKeyId body with JStr k => st !! k | _ => None end).
    + destruct (calculateScores _ _); [|done].
      destruct (image_reference _); [|done].
      destruct (set_up w); [|done].
      by intros [= <- <- _ <-].
    + destruct (image_reference _); [|done].
      destruct (set_up w); [|done].
      by intros [= <- <- _ <-].
  - destruct (image_reference _); [|done].
    destruct (set_up w); [|done].
    by intros [= <- <- _ <-].
Qed.

Lemma prefix_app s1 s2 : String.prefix s1 (s1 +:+ s2) = true.
Proof.
  induction s1 as [|a s1 IH]; [by destruct s2|].
  simpl. by destruct (Ascii.ascii_dec a a).
Qed.

Lemma elem_of_getByPrefix prefix (st : gmap string stored) v :
  v ∈ (map_to_list (filter (λ kv, String.prefix prefix kv.1 = true) st)).*2
  ↔ ∃ i, String.prefix prefix i = true ∧ st !! i = Some v.
Proof.
  rewrite list_elem_of_fmap. split.
  - intros ([i v'] & -> & Hin). exists i.
    apply elem_of_map_to_list, map_lookup_filter_Some in Hin as [? ?]. done.
  - intros (i & Hprefix & Hi). exists (i, v). split; [done|].
    by apply elem_of_map_to_list, map_lookup_filter_Some.
Qed.

(** X13. An uploaded key is listed by the answer-keys route under the id
    the upload returned, with the answers that were submitted, and the
    upload changes nothing in what the evaluations route lists. *)
Theorem uploaded_key_is_listed (w w' : world) (request : option answerKeyBody)
    (st st' : gmap string stored) (answerKeyId message : string) :
  upload_answer_key w request st = (UploadOk answerKeyId message, st') →
  get_up w' = true →
  ∃ body answerKeys,
    request = Some body
    ∧ get_answer_keys w' st' = (AnswerKeysJson answerKeys, st')
    ∧ (∃ key, StoredKey key ∈ answerKeys
              ∧ id key = answerKeyId ∧ answers key = body_answers body)
    ∧ (get_evaluations w' st').1 = (get_evaluations w' st).1.
Proof.
  intros (body & -> & Hid & ->)%upload_answer_key_inv Hget.
  unfold get_answer_keys, get_evaluations, try_catch_query, kv_getByPrefix.
  unfold mbind, mret, handler_bind, handler_ret. rewrite Hget.
  exists body. eexists. split; [done|]. split; [done|]. split.
  - exists (answerKeyData_of w body). split; [|by split].
    apply elem_of_getByPrefix. exists answerKeyId.
    split; [rewrite Hid; apply prefix_app|apply lookup_insert_eq].
  - cbn [fst]. rewrite map_filter_insert_not; [done|].
    intros y. rewrite Hid. cbn. discriminate.
Qed.

Lemma uploaded_key_is_listed_witness :
  (upload_answer_key sample_world (Some incomplete_upload) ∅
   = (UploadOk (id stored_incomplete_key) "Answer key uploaded successfully",
      <[id stored_incomplete_key := StoredKey stored_incomplete_key]> ∅)
   ∧ get_up sample_world = true)
  ∧ ∃ body answerKeys,
      Some incomplete_upload = Some body
      ∧ get_answer_keys sample_world
          (<[id stored_incomplete_key := StoredKey stored_incomplete_key]> ∅)
        = (AnswerKeysJson answerKeys,
           <[id stored_incomplete_key := StoredKey stored_incomplete_key]> ∅)
      ∧ (∃ key, StoredKey key ∈ answerKeys
                ∧ id key = id stored_incomplete_key
                ∧ answers key = body_answers body)
      ∧ (get_evaluations sample_world
           (<[id stored_incomplete_key := StoredKey stored_incomplete_key]> ∅)).1
        = (get_evaluations sample_world ∅).1.
Proof.
  split; [split; reflexivity|].
  apply (uploaded_key_is_listed sample_world sample_world
           (Some incomplete_upload) ∅ _ (id stored_incomplete_key)
           "Answer key uploaded successfully"); reflexivity.
Defined.

(** X14. A processed sheet is listed by the evaluations route, and
    processing changes nothing in what the answer-keys route lists. *)
Theorem processed_sheet_is_listed (w w' : world) (request : option omrBody)
    (st st' : gmap string stored) (evaluationId message : string)
    (e : evaluationData) :
  process_omr w request st = (ProcessOk evaluationId e message, st') →
  get_up w' = true →
  ∃ evaluations,
    get_evaluations w' st' = (EvaluationsJson evaluations, st')
    ∧ StoredEvaluation e ∈ evaluations
    ∧ (get_answer_keys w' st').1 = (get_answer_keys w' st).1.
Proof.
  intros (Hid & _ & ->)%process_omr_inv Hget.
  unfold get_answer_keys, get_evaluations, try_catch_query, kv_getByPrefix.
  unfold mbind, mret, handler_bind, handler_ret. rewrite Hget.
  eexists. split; [done|]. split.
  - apply elem_of_getByPrefix. exists evaluationId.
    split; [rewrite Hid; apply prefix_app|apply lookup_insert_eq].
  - cbn [fst]. rewrite map_filter_insert_not; [done|].
    intros y. rewrite Hid. cbn. discriminate.
Qed.

Lemma processed_sheet_is_listed_witness :
  (process_omr sample_world (Some sample_sheet) ∅
   = (ProcessOk (ev_id stored_sheet) stored_sheet
        "OMR sheet processed successfully",
      <[ev_id stored_sheet := StoredEvaluation stored_sheet]> ∅)
   ∧ get_up sample_world = true)
  ∧ ∃ evaluations,
      get_evaluations sample_world
        (<[ev_id stored_sheet := StoredEvaluation stored_sheet]> ∅)
      = (EvaluationsJson evaluations,
         <[ev_id stored_sheet := StoredEvaluation stored_sheet]> ∅)
      ∧ StoredEvaluation stored_sheet ∈ evaluations
      ∧ (get_answer_keys sample_world
           (<[ev_id stored_sheet := StoredEvaluation stored_sheet]> ∅)).1
        = (get_answer_keys sample_world ∅).1.
Proof.
  split; [split; reflexivity|].
  apply (processed_sheet_is_listed sample_world sample_world
           (Some sample_sheet) ∅ _ (ev_id stored_sheet)
           "OMR sheet processed successfully" stored_sheet); reflexivity.
Defined.

(** ** Ids drawn from the clock *)

Lemma append_cancel_l p s1 s2 : p +:+ s1 = p +:+ s2 → s1 = s2.
Proof.
  induction p as [|a p IH]; [done|]. intros Heq. apply IH.
  by injection Heq.
Qed.

Lemma evaluation_id_inj (a b : Z) :
  "evaluation_" +:+ pretty a = "evaluation_" +:+ pretty b → a = b.
Proof. intros Heq%append_cancel_l. by apply (inj pretty) in Heq. Qed.

(** X15. The id of an evaluation is the clock reading alone. Two sheets
    processed one after the other get the same id exactly when the clock
    read the same millisecond for both, and then the second record replaces
    the first and the store holds no more records than before; with
    different readings both records are kept. *)
Theorem sheets_sharing_a_millisecond (w1 w2 : world)
    (request1 request2 : option omrBody) (st st1 st2 : gmap string stored)
    (id1 id2 message1 message2 : string) (e1 e2 : evaluationData) :
  process_omr w1 request1 st = (ProcessOk id1 e1 message1, st1) →
  process_omr w2 request2 st1 = (ProcessOk id2 e2 message2, st2) →
  if bool_decide (now w1 = now w2)
  then id1 = id2
       ∧ st2 !! id1 = Some (StoredEvaluation e2)
       ∧ dom st2 = dom st1
  else id1 ≠ id2
       ∧ st2 !! id1 = Some (StoredEvaluation e1)
       ∧ st2 !! id2 = Some (StoredEvaluation e2).
Proof.
  intros (Hid1 & _ & ->)%process_omr_inv (Hid2 & _ & ->)%process_omr_inv.
  case_bool_decide as Hnow.
  - assert (id1 = id2) as <- by congruence.
    split; [done|]. split; [apply lookup_insert_eq|].
    by rewrite insert_insert_eq, !dom_insert_L.
  - assert (id1 ≠ id2) as Hne.
    { rewrite Hid1, Hid2. intros Heq. by apply evaluation_id_inj in Heq. }
    split; [done|]. split; [|apply lookup_insert_eq].
    rewrite lookup_insert_ne by done. apply lookup_insert_eq.
Qed.

Lemma sheets_sharing_a_millisecond_witness :
  let st1 := <[ev_id stored_sheet := StoredEvaluation stored_sheet]> ∅ in
  (process_omr sample_world (Some sample_sheet) ∅
   = (ProcessOk (ev_id stored_sheet) stored_sheet
        "OMR sheet processed successfully", st1)
   ∧ process_omr sample_world (Some sample_sheet) st1
     = (ProcessOk (ev_id stored_sheet) stored_sheet
          "OMR sheet processed successfully",
        <[ev_id stored_sheet := StoredEvaluation stored_sheet]> st1))
  ∧ ev_id stored_sheet = ev_id stored_sheet
  ∧ (<[ev_id stored_sheet := StoredEvaluation stored_sheet]> st1)
      !! ev_id stored_sheet = Some (StoredEvaluation stored_sheet)
  ∧ dom (<[ev_id stored_sheet := StoredEvaluation stored_sheet]> st1) = dom st1.
Proof.
  intros st1. split; [split; reflexivity|].
  exact (sheets_sharing_a_millisecond sample_world sample_world
           (Some sample_sheet) (Some sample_sheet) ∅ st1 _
           (ev_id stored_sheet) (ev_id stored_sheet) _ _
           stored_sheet stored_sheet eq_refl eq_refl).
Defined.

(** ** The dashboard's score distribution *)

(** Case analysis on every integer comparison of the goal. *)
Local Ltac compare_scores :=
  repeat match goal with
         | |- context [?a <=? ?b] => destruct (Z.leb_spec a b)
         | |- context [?a <? ?b] => destruct (Z.ltb_spec a b)
         end;
  simpl; try reflexivity; lia.

Lemma count_rows_split (p1 p2 : dashboardRow → bool) rows :
  (∀ e, p1 e && p2 e = false) →
  count_rows (λ e, p1 e || p2 e) rows
  = (count_rows p1 rows + count_rows p2 rows)%nat.
Proof.
  intros Hdisjoint. unfold count_rows.
  induction rows as [|e rows IH]; simpl; [done|].
  specialize (Hdisjoint e).
  destruct (p1 e), (p2 e); simpl in *; try done; lia.
Qed.

Lemma count_rows_ext (p1 p2 : dashboardRow → bool) rows :
  (∀ e, p1 e = p2 e) → count_rows p1 rows = count_rows p2 rows.
Proof. intros Hext. unfold count_rows. f_equal. by apply filter_ext_bool. Qed.

(** X16. The five ranges of the dashboard's score distribution partition
    the completed evaluations: every completed evaluation, whatever its
    integer score, is counted in exactly one of them, so the five counts
    add up to the number of completed evaluations; and the evaluations
    counted as passed (a score of at least 70) are those of the first three
    ranges. *)
Theorem scoreDistribution_partitions (evaluations : list dashboardRow) :
  let completed := completedEvaluations evaluations in
  (scoreDistribution completed).*1
  = ["90-100"; "80-89"; "70-79"; "60-69"; "Below 60"]
  ∧ sum_list (scoreDistribution completed).*2 = length completed
  ∧ count_rows (λ e, 70 <=? row_totalScore e) completed
    = sum_list (take 3 (scoreDistribution completed).*2).
Proof.
  intros completed. split; [reflexivity|].
  unfold scoreDistribution. cbn [fmap list_fmap snd take sum_list_with id].
  assert (length completed = count_rows (λ _, true) completed) as ->.
  { unfold count_rows. clear. induction completed as [|e l IH]; simpl; [done|].
    by rewrite <-IH. }
  split.
  - rewrite (count_rows_ext (λ _, true)
      (λ e, (90 <=? row_totalScore e)
            || ((80 <=? row_totalScore e) && (row_totalScore e <? 90)
               || ((70 <=? row_totalScore e) && (row_totalScore e <? 80)
                  || ((60 <=? row_totalScore e) && (row_totalScore e <? 70)
                     || (row_totalScore e <? 60))))))
      by (intros e; compare_scores).
    rewrite !count_rows_split; [cbv [Datatypes.id]; lia|intros e; compare_scores..].
  - rewrite (count_rows_ext (λ e, 70 <=? row_totalScore e)
      (λ e, (90 <=? row_totalScore e)
            || ((80 <=? row_totalScore e) && (row_totalScore e <? 90)
               || (70 <=? row_totalScore e) && (row_totalScore e <? 80))))
      by (intros e; compare_scores).
    rewrite !count_rows_split; [cbv [Datatypes.id]; lia|intros e; compare_scores..].
Qed.

(** ** From the store to the dashboard *)

Lemma process_omr_inv_score w body st evaluationId e message st' :
  process_omr w (Some body) st = (ProcessOk evaluationId e message, st') →
  ev_status e = Completed
  ∧ match key_for (body_answerKeyId body) st with
    | Some key =>
        ∃ r, calculateScores (Obj (detectedAnswers e)) (stored_answers key) = Ok r
             ∧ evaluation e = Some r
    | None => evaluation e = None
    end.
Proof.
  unfold process_omr, try_catch, req_json, lift, kv_get, kv_set, key_for.
  unfold mbind, mret, handler_bind, handler_ret.
  generalize (simulateOMRProcessing (random w)) as detected.
  generalize ("evaluation_" +:+ pretty (now w)) as newId.
  intros newId detected.
  destruct (negb (truthy (body_studentName body)) || _ || _); [done|].
  destruct (truthy (body_answerKeyId body)).
  - destruct (get_up w); [|done].
    destruct (match body_answerKeyId body with JStr k => st !! k | _ => None end)
      as [key|].
    + destruct (calculateScores (Obj detected) (stored_answers key))
        as [r|] eqn:Hr; [|done].
      destruct (image_reference _); [|done].
      destruct (set_up w); [|done].
      intros [= _ <- _ _]. split; [done|]. by exists r.
    + destruct (image_reference _); [|done].
      destruct (set_up w); [|done].
      by intros [= _ <- _ _].
  - destruct (image_reference _); [|done].
    destruct (set_up w); [|done].
    by intros [= _ <- _ _].
Qed.

Lemma calculateScores_total_range detected c r :
  calculateScores (Obj detected) c = Ok r → 0 ≤ totalScore r ≤ 100.
Proof.
  intros Hr.
  destruct (scoring_outcome detected c) as [[_ Hthrow]|[Hc _]]; [congruence|].
  rewrite (calculateScores_props_of (Obj detected) c) in Hr by done.
  destruct (calculateScores_total detected (props_of c)) as (r' & Hr' & Ht).
  cbn [props_of] in Hr. assert (r' = r) as -> by congruence.
  rewrite Ht. apply (count_questions_bounds _ sheetQuestions).
Qed.

(** X17. Every sheet the OMR route stores reaches the dashboard as a
    completed evaluation with a score between 0 and 100, and a sheet that
    was processed without a stored answer key reaches it with score 0: it
    is counted in the "Below 60" range and not among the passed. *)
Theorem processed_sheet_on_the_dashboard (w : world) (body : omrBody)
    (st st' : gmap string stored) (evaluationId message : string)
    (e : evaluationData) :
  process_omr w (Some body) st = (ProcessOk evaluationId e message, st') →
  completedEvaluations [loaded_row e] = [loaded_row e]
  ∧ 0 ≤ row_totalScore (loaded_row e) ≤ 100
  ∧ (key_for (body_answerKeyId body) st = None →
     row_totalScore (loaded_row e) = 0
     ∧ scoreDistribution [loaded_row e]
       = [("90-100", 0); ("80-89", 0); ("70-79", 0); ("60-69", 0);
          ("Below 60", 1)]%nat
     ∧ count_rows (λ e, 70 <=? row_totalScore e) [loaded_row e] = 0%nat).
Proof.
  intros [Hstatus Hscore]%process_omr_inv_score.
  unfold completedEvaluations, loaded_row. cbn [List.filter row_status].
  rewrite Hstatus. split; [done|]. split.
  - cbn [row_totalScore].
    destruct (key_for (body_answerKeyId body) st) as [key|].
    + destruct Hscore as (r & Hr%calculateScores_total_range & ->).
      destruct (Z.eqb_spec (totalScore r) 0); lia.
    + rewrite Hscore. lia.
  - intros Hkey. rewrite Hkey in Hscore. rewrite Hscore. by repeat split.
Qed.

Lemma processed_sheet_on_the_dashboard_witness :
  (process_omr sample_world (Some sample_sheet) ∅
   = (ProcessOk (ev_id stored_sheet) stored_sheet
        "OMR sheet processed successfully",
      <[ev_id stored_sheet := StoredEvaluation stored_sheet]> ∅)
   ∧ key_for (body_answerKeyId sample_sheet) ∅ = None)
  ∧ completedEvaluations [loaded_row stored_sheet] = [loaded_row stored_sheet]
  ∧ 0 ≤ row_totalScore (loaded_row stored_sheet) ≤ 100
  ∧ row_totalScore (loaded_row stored_sheet) = 0
  ∧ scoreDistribution [loaded_row stored_sheet]
    = [("90-100", 0); ("80-89", 0); ("70-79", 0); ("60-69", 0);
       ("Below 60", 1)]%nat
  ∧ count_rows (λ e, 70 <=? row_totalScore e) [loaded_row stored_sheet] = 0%nat.
Proof.
  split; [split; reflexivity|].
  destruct (processed_sheet_on_the_dashboard sample_world sample_sheet ∅
              (<[ev_id stored_sheet := StoredEvaluation stored_sheet]> ∅)
              (ev_id stored_sheet) "OMR sheet processed successfully"
              stored_sheet eq_refl) as (Hcompleted & Hrange & Hzero).
  split; [exact Hcompleted|]. split; [exact Hrange|].
  exact (Hzero eq_refl).
Defined.
